(** * ocr_data_processor.py: request formatting, batch submission, completion
      polling and result assembly of [OCRDataProcessor].

    The development follows the source file method by method.  Values that
    cross the HTTP boundary are JSON values; Python exceptions are an
    explicit [Raise]; the calls the program makes to the outside world
    (the HTTP transport, the clock, the tolerant JSON parser) are
    parameters of the methods that use them. *)

From Stdlib Require Import ZArith QArith Lqa Ascii String.
From stdpp Require Import base option list strings gmap.

Local Set Warnings "-register-all".
Local Open Scope Z_scope.
Local Open Scope string_scope.
Local Open Scope list_scope.

(** ** Python values and exceptions *)

(** What [response.json()], [json.loads] and [pandas.read_json] hand to the
    program: [None], [bool], [int], [float] (kept as its literal), [str],
    [list] and [dict].  A [dict] is its items in insertion order, with one
    item per key. *)
Inductive json : Type :=
  | JNull
  | JBool (b : bool)
  | JInt (z : Z)
  | JFloat (literal : string)
  | JStr (s : string)
  | JArr (items : list json)
  | JObj (items : list (string * json)).

(** The exception classes that occur in the program and in the library
    calls it makes.  [RetryError] is tenacity's; it wraps the exception of
    the last attempt. *)
Inductive exn : Type :=
  | BatchNotReadyException (msg : string)
  | RetryError (last_attempt : exn)
  | KeyError (key : string)
  | IndexError
  | TypeError
  | JSONDecodeError
  | RequestException (cls : string).

Definition exn_class (e : exn) : string :=
  match e with
  | BatchNotReadyException _ => "BatchNotReadyException"
  | RetryError _ => "RetryError"
  | KeyError _ => "KeyError"
  | IndexError => "IndexError"
  | TypeError => "TypeError"
  | JSONDecodeError => "JSONDecodeError"
  | RequestException cls => cls
  end.

(** A call either returns a value or raises. *)
Inductive result (A : Type) : Type :=
  | Return (a : A)
  | Raise (e : exn).
Arguments Return {A} a.
Arguments Raise {A} e.

Global Instance result_ret : MRet result := fun A a => Return a.
Global Instance result_bind : MBind result := fun A B f r =>
  match r with
  | Return a => f a
  | Raise e => Raise e
  end.
Global Instance result_fmap : FMap result := fun A B f r =>
  match r with
  | Return a => Return (f a)
  | Raise e => Raise e
  end.

Definition returns {A} (r : result A) : bool :=
  match r with Return _ => true | Raise _ => false end.

(** [d[key]] for a [dict] built from JSON: first (and only) item under
    [key]. *)
Fixpoint obj_get (items : list (string * json)) (key : string) : option json :=
  match items with
  | [] => None
  | (k, v) :: rest => if String.eqb k key then Some v else obj_get rest key
  end.

(** [v[key]] with a string key.  Only a [dict] accepts it; a [list] or a
    [str] wants an integer index, the other values are not subscriptable. *)
Definition getitem (v : json) (key : string) : result json :=
  match v with
  | JObj items =>
      match obj_get items key with
      | Some x => Return x
      | None => Raise (KeyError key)
      end
  | _ => Raise TypeError
  end.

(** [v[0]].  A [dict] decoded from JSON has string keys only, so [0] is
    never one of them; a non-empty [str] yields its first character. *)
Definition getitem0 (v : json) : result json :=
  match v with
  | JArr (x :: _) => Return x
  | JArr [] => Raise IndexError
  | JStr (String c _) => Return (JStr (String c ""))
  | JStr "" => Raise IndexError
  | JObj _ => Raise (KeyError "0")
  | _ => Raise TypeError
  end.

(** [v in choices] for a list of string literals: [==] against each. *)
Definition py_in (v : json) (choices : list string) : bool :=
  match v with
  | JStr s => existsb (String.eqb s) choices
  | _ => false
  end.

(** ** The processor object *)

(** [__init__] stores its arguments; [api_key] is [os.getenv] of the
    credential, [None] when the variable is unset. *)
Record OCRDataProcessor : Type := {
  ocr_data : list (string * string);
  system_prompt : string;
  model : string;
  api_key : option string
}.

Definition default_model : string := "gpt-3.5-turbo".

(** The input mapping is a Python [dict]: its items in insertion order, no
    key twice. *)
Definition is_dict {V} (items : list (string * V)) : Prop := NoDup (items.*1).

(** ** Request Formatter: [prepare_data] *)

Record message : Type := { role : string; content : string }.

Record request_body : Type := {
  body_model : string;
  messages : list message
}.

(** One row of the frame [prepare_data] returns, columns in the frame's
    order after [ocr] is dropped. *)
Record request : Type := {
  custom_id : string;
  method : string;
  url : string;
  body : request_body
}.

(** The lambda applied to the [ocr] column. *)
Definition make_body (self : OCRDataProcessor) (x : string) : request_body :=
  {| body_model := model self;
     messages := [ {| role := "system"; content := system_prompt self |};
                   {| role := "user"; content := x |} ] |}.

(** [from_dict(orient='index')] makes one row per item, the key in the
    index; [reset_index] turns the index into the first column, renamed
    [custom_id]; [method] and [url] are constant columns; [ocr] is dropped
    at the end. *)
Definition prepare_data (self : OCRDataProcessor) : list request :=
  (fun item : string * string =>
     {| custom_id := item.1;
        method := "POST";
        url := "/v1/chat/completions";
        body := make_body self item.2 |}) <$> ocr_data self.

Definition custom_ids (df : list request) : list string := custom_id <$> df.

(** ** Batch Submitter: [_create_batch] and the status query *)

(** What the program passes to [requests.post] / [requests.get] and what
    it reads from the response object: [status_code] (only logged) and the
    outcome of [response.json()], which raises when the body is not
    JSON. *)
Record http_request : Type := {
  req_url : string;
  req_headers : list (string * string);
  req_json : option json
}.

Record http_response : Type := {
  status_code : Z;
  response_json : result json
}.

(** [f"Bearer {self.api_key}"]: an unset credential is formatted as the
    text [None]. *)
Definition authorization (self : OCRDataProcessor) : string :=
  String.append "Bearer " (default "None" (api_key self)).

Definition headers (self : OCRDataProcessor) : list (string * string) :=
  [ ("Authorization", authorization self);
    ("Content-Type", "application/json") ].

(** [post] is [requests.post]: it raises on a transport failure and
    otherwise returns the response, whatever its status code. *)
Definition _create_batch (self : OCRDataProcessor)
    (post : http_request -> result http_response)
    (input_file_id : string) : result json :=
  let url := "https://api.openai.com/v1/batches" in
  let data := JObj [ ("input_file_id", JStr input_file_id);
                     ("endpoint", JStr "/v1/chat/completions");
                     ("completion_window", JStr "24h") ] in
  response ← post {| req_url := url; req_headers := headers self;
                     req_json := Some data |};
  response_json response.

Definition get_batch_details (self : OCRDataProcessor)
    (get : http_request -> result http_response)
    (batch_id : string) : result json :=
  let url := String.append "https://api.openai.com/v1/batches/" batch_id in
  response ← get {| req_url := url; req_headers := headers self;
                    req_json := None |};
  response_json response.

Definition is_2xx (code : Z) : bool := ((200 <=? code) && (code <? 300))%Z.

(** ** Completion Poller: [wait_for_batch_completion] *)

(** The body of the method, one attempt: query, then return the details
    on a terminal status and raise the not-ready signal otherwise. *)
Definition check_batch (self : OCRDataProcessor)
    (get : http_request -> result http_response)
    (batch_id : string) : result json :=
  batch_details ← get_batch_details self get batch_id;
  status ← getitem batch_details "status";
  if py_in status ["completed"; "failed"]
  then Return batch_details
  else Raise (BatchNotReadyException "Batch not ready yet, rechecking...").

(** The three arguments of the [@retry] decorator (tenacity 8).

    [wait_exponential(multiplier, max)]: [multiplier * 2 ** (attempt - 1)],
    clamped to [[0, max]]. *)
Definition wait_exponential (multiplier max_wait : Z) (attempt_number : nat) : Z :=
  Z.max (Z.max 0 0)
        (Z.min (multiplier * 2 ^ (Z.of_nat attempt_number - 1)) max_wait).

(** [stop_after_delay(max_delay)]: [seconds_since_start >= max_delay]. *)
Definition stop_after_delay (max_delay : Z) (seconds_since_start : Q) : bool :=
  Qle_bool (inject_Z max_delay) seconds_since_start.

(** [retry_if_exception_type(BatchNotReadyException)]. *)
Definition retry_if_exception_type (e : exn) : bool :=
  match e with
  | BatchNotReadyException _ => true
  | _ => false
  end.

Definition poll_wait : nat -> Z := wait_exponential 1 1800.
Definition poll_stop : Q -> bool := stop_after_delay 86400.

(** What a run of the retry loop does, in order. *)
Inductive event : Type :=
  | Attempt (attempt_number : nat)
  | Sleep (seconds : Z).

(** tenacity's loop around a function, with the three arguments above.
    [fn n] is the [n]-th call of the wrapped function: the seconds that
    pass until it ends (any delay of the sleep before it included) and
    how it ends.  The clock starts
    with the first attempt; an attempt that ends in an exception the
    [retry] predicate rejects re-raises it; one it accepts stops with
    [RetryError] when [stop] holds and otherwise sleeps [wait] seconds
    and goes round again.  [fuel] bounds the number of attempts looked
    at; [None] means it was too small. *)
Fixpoint retrying {A} (fn : nat -> Q * result A) (fuel : nat)
    (attempt_number : nat) (since_start : Q)
    : option (list event * result A) :=
  match fuel with
  | O => None
  | S fuel' =>
      let seconds_since_start := (since_start + (fn attempt_number).1)%Q in
      match (fn attempt_number).2 with
      | Return a => Some ([Attempt attempt_number], Return a)
      | Raise e =>
          if negb (retry_if_exception_type e)
          then Some ([Attempt attempt_number], Raise e)
          else if poll_stop seconds_since_start
          then Some ([Attempt attempt_number], Raise (RetryError e))
          else
            let sleep := poll_wait attempt_number in
            match retrying fn fuel' (S attempt_number)
                    (seconds_since_start + inject_Z sleep)%Q with
            | Some (trace, r) =>
                Some (Attempt attempt_number :: Sleep sleep :: trace, r)
            | None => None
            end
      end
  end.

(** The clock of a run of that loop.  [started_at fn n] is the time since
    the start at which attempt [n] begins, if the loop gets that far: the
    earlier attempts and the sleeps after them; [finished_at fn n] is the
    [seconds_since_start] that [stop] sees after attempt [n]. *)
Fixpoint started_at {A} (fn : nat -> Q * result A) (n : nat) : Q :=
  match n with
  | S (S _ as p) => (started_at fn p + (fn p).1 + inject_Z (poll_wait p))%Q
  | _ => 0%Q
  end.

Definition finished_at {A} (fn : nat -> Q * result A) (n : nat) : Q :=
  (started_at fn n + (fn n).1)%Q.

(** The seconds slept before attempt [n]. *)
Fixpoint idle_before (n : nat) : Z :=
  match n with
  | O => 0
  | S p => idle_before p + poll_wait p
  end.

(** The provider as the poller sees it: the [n]-th status request takes
    [(world n).1] seconds and behaves as [(world n).2]. *)
Definition provider : Type := nat -> Q * (http_request -> result http_response).

Definition attempt (self : OCRDataProcessor) (world : provider)
    (batch_id : string) (n : nat) : Q * result json :=
  ((world n).1, check_batch self (world n).2 batch_id).

(** The loop of the decorated method, entered at attempt [n],
    [since_start] seconds after the first attempt began. *)
Definition poll_from (self : OCRDataProcessor) (world : provider)
    (batch_id : string) (fuel : nat) (n : nat) (since_start : Q)
    : option (list event * result json) :=
  retrying (attempt self world batch_id) fuel n since_start.

(** The decorated method. *)
Definition wait_for_batch_completion (self : OCRDataProcessor)
    (world : provider) (batch_id : string) (fuel : nat)
    : option (list event * result json) :=
  poll_from self world batch_id fuel 1 0.

(** ** Result Assembler: [process_responses] *)

(** A cell of the [custom_id] column of the frame [pandas.read_json]
    built from the output file.  [read_json] is called with [dtype] at its
    default, which infers column types: the column holds the strings of
    the file, or integers when every cell of the column reads as one. *)
Inductive label : Type :=
  | LStr (s : string)
  | LInt (z : Z).

Global Instance label_eq_dec : EqDecision label.
Proof. solve_decision. Defined.

Global Instance label_countable : Countable label.
Proof.
  refine (inj_countable'
    (fun l => match l with LStr s => inl s | LInt z => inr z end)
    (fun x => match x with inl s => LStr s | inr z => LInt z end) _).
  intros []; reflexivity.
Defined.

(** One row of that frame: the columns the method reads. *)
Record output_row : Type := {
  row_custom_id : label;
  row_response : json
}.

(** The first lambda: [x['body']['choices'][0]['message']['content']]. *)
Definition message_content (x : json) : result json :=
  body ← getitem x "body";
  choices ← getitem body "choices";
  choice ← getitem0 choices;
  msg ← getitem choice "message";
  getitem msg "content".

(** [Series.to_dict()]: the pairs are inserted in row order, a later row
    replaces an earlier one with the same index. *)
Definition to_dict (pairs : list (label * json)) : gmap label json :=
  foldl (fun d kv => <[kv.1 := kv.2]> d) ∅ pairs.

Section Assembler.
(** [json_repair.loads], applied to whatever the content cell holds. *)
Variable loads : json -> result json.

(** [df] is the frame read from the downloaded file.  A file without
    lines gives a frame without columns, so [df['response']] raises.
    Each [apply] runs down its whole column before the next one
    starts. *)
Definition process_responses (df : list output_row) : result (gmap label json) :=
  match df with
  | [] => Raise (KeyError "response")
  | _ =>
      json_text ← mapM (fun row => message_content (row_response row)) df;
      parsed ← mapM loads json_text;
      Return (to_dict (zip (row_custom_id <$> df) parsed))
  end.

(** What the two lambdas make of one row, when both get to it. *)
Definition parse_row (row : output_row) : result json :=
  message_content (row_response row) ≫= loads.
End Assembler.

(** ** The tolerant JSON parser *)

Module json_repair.

Local Open Scope char_scope.

Definition quote : ascii := "034".
Definition backslash : ascii := "092".

Definition is_ws (c : ascii) : bool :=
  Ascii.eqb c " " || Ascii.eqb c "009" || Ascii.eqb c "010" || Ascii.eqb c "013".

Definition is_digit (c : ascii) : bool :=
  let n := N_of_ascii c in ((48 <=? n) && (n <=? 57))%N.

Definition digit_val (c : ascii) : Z := Z.of_N (N_of_ascii c) - 48.

Definition hex_val (c : ascii) : option N :=
  let n := N_of_ascii c in
  if ((48 <=? n) && (n <=? 57))%N then Some (n - 48)%N
  else if ((65 <=? n) && (n <=? 70))%N then Some (n - 55)%N
  else if ((97 <=? n) && (n <=? 102))%N then Some (n - 87)%N
  else None.

Fixpoint skip_ws (s : string) : string :=
  match s with
  | String c r => if is_ws c then skip_ws r else s
  | EmptyString => s
  end.

(** The longest prefix of [s] made of characters that satisfy [p], and
    what follows it. *)
Fixpoint span (p : ascii -> bool) (s : string) : string * string :=
  match s with
  | String c r =>
      if p c then let '(a, b) := span p r in (String c a, b)
      else (EmptyString, s)
  | EmptyString => (EmptyString, EmptyString)
  end.

(** [s] without the leading [prefix], when it starts with it. *)
Fixpoint strip_prefix (prefix s : string) : option string :=
  match prefix, s with
  | EmptyString, _ => Some s
  | String a p, String b r => if Ascii.eqb a b then strip_prefix p r else None
  | String _ _, EmptyString => None
  end.

Definition Z_of_digits (ds : string) : Z :=
  fold_left (fun acc c => 10 * acc + digit_val c) (list_ascii_of_string ds) 0.

(** A JSON number at the head of [s]: an optional minus sign, then a
    single zero or digits that start with a non-zero one, then an
    optional fraction (a dot and digits) and an optional exponent (e or
    E, an optional sign, digits).  It is an [int] when it has neither
    fraction nor exponent. *)
Definition parse_number (s : string) : option (json * string) :=
  let '(sign, s1) :=
    match s with
    | String c r => if Ascii.eqb c "-" then ("-"%string, r) else (EmptyString, s)
    | EmptyString => (EmptyString, s)
    end in
  let '(int_part, s2) :=
    match s1 with
    | String c r =>
        if Ascii.eqb c "0" then ("0"%string, r) else span is_digit s1
    | EmptyString => (EmptyString, s1)
    end in
  match int_part with
  | EmptyString => None
  | _ =>
      let '(frac, s3) :=
        match s2 with
        | String c r =>
            if Ascii.eqb c "." then
              match span is_digit r with
              | (EmptyString, _) => (EmptyString, s2)
              | (ds, r') => (String "." ds, r')
              end
            else (EmptyString, s2)
        | EmptyString => (EmptyString, s2)
        end in
      let '(expo, s4) :=
        match s3 with
        | String c r =>
            if Ascii.eqb c "e" || Ascii.eqb c "E" then
              let '(sg, r1) :=
                match r with
                | String d r' =>
                    if Ascii.eqb d "+" || Ascii.eqb d "-"
                    then (String d EmptyString, r') else (EmptyString, r)
                | EmptyString => (EmptyString, r)
                end in
              match span is_digit r1 with
              | (EmptyString, _) => (EmptyString, s3)
              | (ds, r') => (String c (String.append sg ds), r')
              end
            else (EmptyString, s3)
        | EmptyString => (EmptyString, s3)
        end in
      match frac, expo with
      | EmptyString, EmptyString =>
          let n := Z_of_digits int_part in
          Some (JInt (if String.eqb sign "-" then - n else n), s4)
      | _, _ =>
          Some (JFloat (String.append sign
                  (String.append int_part (String.append frac expo))), s4)
      end
  end.

(** The constants Python's decoder reads besides numbers. *)
Definition parse_constant (s : string) : option (json * string) :=
  match strip_prefix "true" s with
  | Some r => Some (JBool true, r)
  | None =>
  match strip_prefix "false" s with
  | Some r => Some (JBool false, r)
  | None =>
  match strip_prefix "null" s with
  | Some r => Some (JNull, r)
  | None =>
  match strip_prefix "NaN" s with
  | Some r => Some (JFloat "NaN", r)
  | None =>
  match strip_prefix "Infinity" s with
  | Some r => Some (JFloat "Infinity", r)
  | None =>
  match strip_prefix "-Infinity" s with
  | Some r => Some (JFloat "-Infinity", r)
  | None => None
  end end end end end end.

(** UTF-8 bytes of a code point. *)
Definition utf8 (cp : N) : string :=
  let byte (n : N) := ascii_of_N n in
  let cont (n : N) := byte (128 + n mod 64)%N in
  if (cp <? 128)%N then String (byte cp) EmptyString
  else if (cp <? 2048)%N then
    String (byte (192 + cp / 64)%N) (String (cont cp) EmptyString)
  else if (cp <? 65536)%N then
    String (byte (224 + cp / 4096)%N)
      (String (cont (cp / 64)%N) (String (cont cp) EmptyString))
  else
    String (byte (240 + cp / 262144)%N)
      (String (cont (cp / 4096)%N)
        (String (cont (cp / 64)%N) (String (cont cp) EmptyString))).

(** Four hexadecimal digits. *)
Definition parse_hex4 (s : string) : option (N * string) :=
  match s with
  | String a (String b (String c (String d r))) =>
      match hex_val a, hex_val b, hex_val c, hex_val d with
      | Some x, Some y, Some z, Some w =>
          Some (((x * 16 + y) * 16 + z) * 16 + w, r)%N
      | _, _, _, _ => None
      end
  | _ => None
  end.

(** What follows a backslash. *)
Definition parse_escape (s : string) : option (string * string) :=
  match s with
  | String c r =>
      let one (x : ascii) := Some (String x EmptyString, r) in
      if Ascii.eqb c quote then one quote
      else if Ascii.eqb c backslash then one backslash
      else if Ascii.eqb c "/" then one "/"
      else if Ascii.eqb c "b" then one "008"
      else if Ascii.eqb c "f" then one "012"
      else if Ascii.eqb c "n" then one "010"
      else if Ascii.eqb c "r" then one "013"
      else if Ascii.eqb c "t" then one "009"
      else if Ascii.eqb c "u" then
        match parse_hex4 r with
        | Some (hi, r1) =>
            let pair :=
              if ((55296 <=? hi) && (hi <=? 56319))%N then
                match strip_prefix (String backslash "u") r1 with
                | Some r2 =>
                    match parse_hex4 r2 with
                    | Some (lo, r3) =>
                        if ((56320 <=? lo) && (lo <=? 57343))%N
                        then Some (65536 + (hi - 55296) * 1024 + (lo - 56320), r3)%N
                        else None
                    | None => None
                    end
                | None => None
                end
              else None in
            match pair with
            | Some (cp, r3) => Some (utf8 cp, r3)
            | None => Some (utf8 hi, r1)
            end
        | None => None
        end
      else None
  | EmptyString => None
  end.

(** The characters of a string after its opening quote, up to the
    closing one.  The strict decoder rejects a control character and a
    string without closing quote; the tolerant one closes the string at
    the end of the text. *)
Fixpoint parse_string (tolerant : bool) (fuel : nat) (s : string)
    : option (string * string) :=
  match fuel with
  | O => None
  | S fuel' =>
      match s with
      | EmptyString => if tolerant then Some (EmptyString, EmptyString) else None
      | String c r =>
          if Ascii.eqb c quote then Some (EmptyString, r)
          else if Ascii.eqb c backslash then
            match parse_escape r with
            | Some (chars, r1) =>
                match parse_string tolerant fuel' r1 with
                | Some (str, r2) => Some (String.append chars str, r2)
                | None => None
                end
            | None => None
            end
          else if (N_of_ascii c <? 32)%N && negb tolerant then None
          else
            match parse_string tolerant fuel' r with
            | Some (str, r1) => Some (String c str, r1)
            | None => None
            end
      end
  end.

(** A character that can stand in a key written without quotes. *)
Definition is_bare (c : ascii) : bool :=
  negb (is_ws c || Ascii.eqb c ":" || Ascii.eqb c "," || Ascii.eqb c "{"
        || Ascii.eqb c "}" || Ascii.eqb c "[" || Ascii.eqb c "]"
        || Ascii.eqb c quote).

(** The key of a member: a string; the tolerant parser also takes a
    key without quotes. *)
Definition parse_key (tolerant : bool) (s : string) : option (string * string) :=
  match s with
  | String c r =>
      if Ascii.eqb c quote then parse_string tolerant (S (String.length r)) r
      else if tolerant then
        match span is_bare s with
        | (EmptyString, _) => None
        | (key, r') => Some (key, r')
        end
      else None
  | EmptyString => None
  end.

(** [d[key] = v] on the items of a [dict]. *)
Fixpoint obj_set (items : list (string * json)) (key : string) (v : json)
    : list (string * json) :=
  match items with
  | [] => [(key, v)]
  | (k, x) :: rest =>
      if String.eqb k key then (k, v) :: rest
      else (k, x) :: obj_set rest key v
  end.

(** Recursive descent.  [first] tells that no member (element) has been
    read yet, so that a closing bracket can follow: after a comma only
    the tolerant parser accepts it.  The tolerant parser closes at the
    end of the text whatever is still open, and reads a missing value
    there as the empty string. *)
Fixpoint parse_value (tolerant : bool) (fuel : nat) (s : string)
    : option (json * string) :=
  match fuel with
  | O => None
  | S fuel' =>
      match skip_ws s with
      | EmptyString => if tolerant then Some (JStr EmptyString, EmptyString) else None
      | String c r =>
          if Ascii.eqb c "{" then parse_members tolerant fuel' true [] r
          else if Ascii.eqb c "[" then parse_elements tolerant fuel' true [] r
          else if Ascii.eqb c quote then
            match parse_string tolerant (S (String.length r)) r with
            | Some (str, r1) => Some (JStr str, r1)
            | None => None
            end
          else
            match parse_constant (String c r) with
            | Some res => Some res
            | None => parse_number (String c r)
            end
      end
  end
with parse_members (tolerant : bool) (fuel : nat) (first : bool)
    (acc : list (string * json)) (s : string) : option (json * string) :=
  match fuel with
  | O => None
  | S fuel' =>
      match skip_ws s with
      | EmptyString => if tolerant then Some (JObj acc, EmptyString) else None
      | String c r =>
          if Ascii.eqb c "}" then
            if first || tolerant then Some (JObj acc, r) else None
          else
            match parse_key tolerant (String c r) with
            | Some (key, r1) =>
                match skip_ws r1 with
                | String c2 r2 =>
                    if Ascii.eqb c2 ":" then
                      match parse_value tolerant fuel' r2 with
                      | Some (v, r3) =>
                          let acc' := obj_set acc key v in
                          match skip_ws r3 with
                          | EmptyString =>
                              if tolerant then Some (JObj acc', EmptyString) else None
                          | String c4 r4 =>
                              if Ascii.eqb c4 "," then
                                parse_members tolerant fuel' false acc' r4
                              else if Ascii.eqb c4 "}" then Some (JObj acc', r4)
                              else None
                          end
                      | None => None
                      end
                    else None
                | EmptyString => None
                end
            | None => None
            end
      end
  end
with parse_elements (tolerant : bool) (fuel : nat) (first : bool)
    (acc : list json) (s : string) : option (json * string) :=
  match fuel with
  | O => None
  | S fuel' =>
      match skip_ws s with
      | EmptyString => if tolerant then Some (JArr acc, EmptyString) else None
      | String c r =>
          if Ascii.eqb c "]" then
            if first || tolerant then Some (JArr acc, r) else None
          else
            match parse_value tolerant fuel' (String c r) with
            | Some (v, r1) =>
                let acc' := acc ++ [v] in
                match skip_ws r1 with
                | EmptyString =>
                    if tolerant then Some (JArr acc', EmptyString) else None
                | String c2 r2 =>
                    if Ascii.eqb c2 "," then
                      parse_elements tolerant fuel' false acc' r2
                    else if Ascii.eqb c2 "]" then Some (JArr acc', r2)
                    else None
                end
            | None => None
            end
      end
  end.

(** Fuel for a whole text: a call that opens a bracket spends two units
    on one character, every other one at most one. *)
Definition enough_for (s : string) : nat := 2 * String.length s + 2.

(** Python's [json.loads]: one value, white space around it, nothing
    else. *)
Definition json_loads (s : string) : option json :=
  match parse_value false (enough_for s) s with
  | Some (v, rest) =>
      match skip_ws rest with
      | EmptyString => Some v
      | String _ _ => None
      end
  | None => None
  end.

(** Modelled from the spec: the repairing parse of [json_repair], whose
    code is not under [src/]: the first value of the text, read by the
    tolerant parser. *)
Definition repair (s : string) : option json :=
  match parse_value true (enough_for s) s with
  | Some (v, _) => Some v
  | None => None
  end.

(** Modelled from the spec: [json_repair.loads] is a third-party
    function, its code is not under [src/].  The spec (4.4, glossary)
    describes it as a tolerant parser that recovers valid JSON from
    near-valid text (trailing commas, unquoted keys, truncated
    structures) rather than failing outright.  The library first tries
    [json.loads] and repairs only a text that decoder rejects; a text
    from which nothing is recovered gives the empty string; an argument
    that is not a string is a [TypeError]. *)
Definition loads (x : json) : result json :=
  match x with
  | JStr s =>
      match json_loads s with
      | Some v => Return v
      | None => Return (default (JStr EmptyString) (repair s))
      end
  | _ => Raise TypeError
  end.

End json_repair.


(** ** The shape of a run of the poller *)

(** Attempt [n] and [retries] more: each attempt but the last is followed
    by its sleep. *)
Fixpoint schedule (n retries : nat) : list event :=
  match retries with
  | O => [Attempt n]
  | S r => Attempt n :: Sleep (poll_wait n) :: schedule (S n) r
  end.

(** The status queries and the seconds of sleep in a trace. *)
Fixpoint attempts (trace : list event) : nat :=
  match trace with
  | [] => O
  | Attempt _ :: rest => S (attempts rest)
  | Sleep _ :: rest => attempts rest
  end.

Fixpoint slept (trace : list event) : Z :=
  match trace with
  | [] => 0
  | Attempt _ :: rest => slept rest
  | Sleep w :: rest => w + slept rest
  end.

(** ** Batch Submitter: [create_batch_file] and [create_batch] *)

(** [DataFrame.to_json(orient='records', lines=True)] writes one JSON
    object per row, the columns as its keys and a [dict] or [list] cell
    as a nested object or array.  The lines are kept as JSON values, not
    as text. *)
Definition message_to_json (m : message) : json :=
  JObj [("role", JStr (role m)); ("content", JStr (content m))].

Definition body_to_json (b : request_body) : json :=
  JObj [("model", JStr (body_model b));
        ("messages", JArr (message_to_json <$> messages b))].

Definition request_to_json (r : request) : json :=
  JObj [("custom_id", JStr (custom_id r));
        ("method", JStr (method r));
        ("url", JStr (url r));
        ("body", body_to_json (body r))].

Definition to_json_lines (df : list request) : list json := request_to_json <$> df.

(** [write] is the file system: it stores the lines under the path or
    raises.  The method returns the path. *)
Definition create_batch_file (write : string -> list json -> result unit)
    (df : list request) : result string :=
  let batch_file := "/app/batch.jsonl" in
  _ ← write batch_file (to_json_lines df);
  Return batch_file.

(** [files_create] is [client.files.create(file=open(path), purpose="batch")]
    followed by [.id]: the id the provider gives the uploaded file. *)
Definition create_batch (self : OCRDataProcessor)
    (files_create : string -> result string)
    (post : http_request -> result http_response)
    (batch_file : string) : result json :=
  oai_file_id ← files_create batch_file;
  _create_batch self post oai_file_id.

(** ** The script under [__main__] *)

(** Everything outside the program that the script touches. *)
Record environment : Type := {
  write_file : string -> list json -> result unit;
  files_create : string -> result string;
  http_post : http_request -> result http_response;
  batches : provider;
  (** [client.files.content(id)], [write_to_file] and [read_json]: the
      frame of the output file, or what goes wrong on the way *)
  read_output : json -> result (list output_row);
  json_loads : json -> result json;
  (** how the f-string of the status URL formats the batch id *)
  format_id : json -> string
}.

(** [process_responses] from the file id on. *)
Definition process_output (env : environment) (output_file_id : json)
    : result (gmap label json) :=
  df ← read_output env output_file_id;
  process_responses (json_loads env) df.

(** How the script ends: it prints the results, ends without printing,
    dies of an exception of the program, or dies of a [NameError]. *)
Inductive script_end : Type :=
  | Printed (results : gmap label json)
  | Nothing_printed
  | Uncaught (e : exn)
  | NameError (name : string).

(** [v == s] for a string literal. *)
Definition py_eq (v : json) (s : string) : bool :=
  match v with
  | JStr x => String.eqb x s
  | _ => false
  end.

(** The [try] block: [batch['id']] is evaluated inside it. *)
Definition polled (env : environment) (self : OCRDataProcessor) (batch : json)
    (fuel : nat) : option (result json) :=
  match getitem batch "id" with
  | Raise e => Some (Raise e)
  | Return id =>
      snd <$> wait_for_batch_completion self (batches env) (format_id env id) fuel
  end.

(** The statements of the script, run in a fresh namespace.  [except
    Exception] logs whatever the [try] block raises and goes on, with
    [batch_details] never assigned. *)
Definition main (env : environment) (self : OCRDataProcessor) (fuel : nat)
    : option script_end :=
  let df := prepare_data self in
  match create_batch_file (write_file env) df
          ≫= create_batch self (files_create env) (http_post env) with
  | Raise e => Some (Uncaught e)
  | Return batch =>
      match polled env self batch fuel with
      | None => None
      | Some (Raise _) => Some (NameError "batch_details")
      | Some (Return batch_details) =>
          match getitem batch_details "status" with
          | Raise e => Some (Uncaught e)
          | Return status =>
              if py_eq status "completed" then
                match getitem batch_details "output_file_id"
                        ≫= process_output env with
                | Return results => Some (Printed results)
                | Raise e => Some (Uncaught e)
                end
              else Some Nothing_printed
          end
      end
  end.

(** How the attempt at which a run stops ends the run: with the value it
    returns, with the exception [retry] rejects, or, past the budget,
    with [RetryError] around the exception [retry] accepts. *)
Definition run_ends {A} (fn : nat -> Q * result A) (m : nat) (r : result A) : Prop :=
  match (fn m).2 with
  | Return a => r = Return a
  | Raise e =>
      if retry_if_exception_type e
      then poll_stop (finished_at fn m) = true /\ r = Raise (RetryError e)
      else r = Raise e
  end.
(** ** Scenarios *)

(** The processor of the usage example, ids shortened. *)
Definition two_records : OCRDataProcessor :=
  {| ocr_data := [("d537a581", "Herb . Univers . Osloensis");
                  ("46448ab7", "Imaged 2015")];
     system_prompt := "I respond in minified JSON.";
     model := default_model;
     api_key := None |}.

Definition error_body : json :=
  JObj [("error", JObj [("message", JStr "Invalid file id");
                        ("type", JStr "invalid_request_error")])].

Definition bad_request : http_response :=
  {| status_code := 400; response_json := Return error_body |}.

(** Status responses of the provider. *)
Definition batch_object (status : string) : json :=
  JObj [("id", JStr "batch_abc"); ("object", JStr "batch");
        ("status", JStr status); ("output_file_id", JNull)].

Definition answers (status : string) : http_request -> result http_response :=
  fun _ => Return {| status_code := 200;
                     response_json := Return (batch_object status) |}.

(** A batch that never leaves [in_progress]; every query is answered at
    once. *)
Definition never_ready : provider := fun _ => (0%Q, answers "in_progress").

(** A batch that is [in_progress] for the first 59 queries and
    [completed] from then on. *)
Definition ready_late : provider :=
  fun n => (0%Q, answers (if (n <=? 59)%nat then "in_progress" else "completed")).

(** A batch that is [validating] at the first query and has [failed] at
    the second, each query taking half a second. *)
Definition fails_soon : provider :=
  fun n => ((1 # 2)%Q, answers (if (n <=? 1)%nat then "validating" else "failed")).

(** A provider whose second status request dies in the transport. *)
Definition breaks : provider :=
  fun n => (0%Q, if (n <=? 1)%nat then answers "in_progress"
                 else fun _ => Raise (RequestException "ConnectionError")).

(** A line of the output file, as the provider writes it, around a given
    message content. *)
Definition response_with (text : json) : json :=
  JObj [("status_code", JInt 200);
        ("request_id", JStr "req_1");
        ("body", JObj [("id", JStr "chatcmpl-1");
                       ("object", JStr "chat.completion");
                       ("choices",
                        JArr [JObj [("index", JInt 0);
                                    ("message",
                                     JObj [("role", JStr "assistant");
                                           ("content", text)]);
                                    ("finish_reason", JStr "stop")]])])].

(** The two message contents of the repair scenario: the object with key
    [x] and value 1 in valid JSON, and the same with the key unquoted and
    a trailing comma. *)
Definition well_formed_content : string :=
  String.append "{"
    (String json_repair.quote (String.append "x" (String json_repair.quote ":1}"))).

Definition malformed_content : string := "{x:1,}".

Definition x_is_1 : json := JObj [("x", JInt 1)].

(** A processor whose record id is made of digits. *)
Definition numeric_id : OCRDataProcessor :=
  {| ocr_data := [("7", "Thuidium assimile")];
     system_prompt := "I respond in minified JSON.";
     model := default_model;
     api_key := None |}.

(** An output line whose response has no choice in it, and one whose
    message has no text. *)
Definition no_choice : json :=
  JObj [("status_code", JInt 200); ("body", JObj [("choices", JArr [])])].

(** The frame of the output file for [two_records], lines in the reverse
    order of submission. *)
Definition two_rows : list output_row :=
  [ {| row_custom_id := LStr "46448ab7";
       row_response := response_with (JStr malformed_content) |};
    {| row_custom_id := LStr "d537a581";
       row_response := response_with (JStr well_formed_content) |} ].

(** An environment in which writing, upload and batch creation succeed,
    the batch behaves as [world] says and the output file holds
    [two_rows].  The batch ids of these scenarios are strings. *)
Definition environment_with (created : http_response) (world : provider)
    : environment :=
  {| write_file := fun _ _ => Return tt;
     files_create := fun _ => Return "file-abc";
     http_post := fun _ => Return created;
     batches := world;
     read_output := fun _ => Return two_rows;
     json_loads := json_repair.loads;
     format_id := fun v => match v with JStr s => s | _ => "None" end |}.

Definition created_ok : http_response :=
  {| status_code := 200; response_json := Return (batch_object "validating") |}.

(** A batch that is [in_progress] at the first query and [completed] at
    the second. *)
Definition completes_soon : provider :=
  fun n => (0%Q, fun _ =>
    Return {| status_code := 200;
              response_json :=
                Return (JObj [("id", JStr "batch_abc");
                              ("status", JStr (if (n <=? 1)%nat then "in_progress"
                                               else "completed"));
                              ("output_file_id", JStr "file-out")]) |}).

(** * Properties *)

(** ** Request Formatter *)

Lemma prepare_data_custom_ids (self : OCRDataProcessor) :
  custom_ids (prepare_data self) = (ocr_data self).*1.
Proof.
  unfold custom_ids, prepare_data.
  induction (ocr_data self) as [|item items IH]; simpl; [reflexivity|].
  f_equal. exact IH.
Qed.

Lemma prepare_data_length (self : OCRDataProcessor) :
  length (prepare_data self) = length (ocr_data self).
Proof. unfold prepare_data. apply length_fmap. Qed.

(** The user message of a request is the text stored under its id. *)
Lemma prepare_data_lookup (self : OCRDataProcessor) (i : nat) (k x : string) :
  ocr_data self !! i = Some (k, x) ->
  prepare_data self !! i =
    Some {| custom_id := k; method := "POST"; url := "/v1/chat/completions";
            body := make_body self x |}.
Proof.
  intros H. unfold prepare_data. rewrite list_lookup_fmap, H. reflexivity.
Qed.

Lemma filter_eq_absent (l : list string) (k : string) :
  k ∉ l -> filter (fun x => x = k) l = [].
Proof.
  induction l as [|x l IH]; intros Hk; [reflexivity|].
  rewrite filter_cons. destruct (decide (x = k)) as [->|_].
  - exfalso. apply Hk. left.
  - apply IH. intros Hin. apply Hk. right. exact Hin.
Qed.

Lemma NoDup_occurs_once (l : list string) (k : string) :
  NoDup l -> k ∈ l -> length (filter (fun x => x = k) l) = 1%nat.
Proof.
  induction 1 as [|x l Hx Hnd IH]; intros Hk.
  - inversion Hk.
  - rewrite filter_cons. destruct (decide (x = k)) as [->|Hne].
    + rewrite filter_eq_absent by assumption. reflexivity.
    + apply IH. inversion Hk; subst; [contradiction|assumption].
Qed.

(** C6: for a non-empty input mapping, [prepare_data] returns as many
    requests as the mapping has records, the [custom_id] column is the
    keys of the mapping (as a multiset, and even in the same order), and
    every key is the [custom_id] of exactly one request. *)
Theorem prepare_data_one_request_per_record (self : OCRDataProcessor) :
  ocr_data self <> [] ->
  is_dict (ocr_data self) ->
  length (prepare_data self) = length (ocr_data self)
  /\ custom_ids (prepare_data self) ≡ₚ (ocr_data self).*1
  /\ NoDup (custom_ids (prepare_data self))
  /\ forall k, k ∈ (ocr_data self).*1 ->
       length (filter (fun r => custom_id r = k) (prepare_data self)) = 1%nat.
Proof.
  intros _ Hdict. unfold is_dict in Hdict.
  split; [apply prepare_data_length|].
  rewrite prepare_data_custom_ids.
  split; [reflexivity|]. split; [exact Hdict|].
  intros k Hk.
  pose proof (NoDup_occurs_once _ k Hdict Hk) as Hone.
  rewrite <- prepare_data_custom_ids in Hone. unfold custom_ids in Hone.
  rewrite <- Hone. clear.
  induction (prepare_data self) as [|r rs IH]; [reflexivity|].
  rewrite fmap_cons, !filter_cons.
  destruct (decide (custom_id r = k)); simpl; rewrite IH; reflexivity.
Qed.

Lemma prepare_data_one_request_per_record_witness :
  length (prepare_data two_records) = 2%nat
  /\ custom_ids (prepare_data two_records) ≡ₚ ["d537a581"; "46448ab7"]
  /\ NoDup (custom_ids (prepare_data two_records))
  /\ forall k, k ∈ ["d537a581"; "46448ab7"] ->
       length (filter (fun r => custom_id r = k) (prepare_data two_records)) = 1%nat.
Proof.
  apply (prepare_data_one_request_per_record two_records).
  - discriminate.
  - unfold is_dict. apply (bool_decide_unpack _). vm_compute. reflexivity.
Defined.

(** C7: for the input mapping with the single record [id1 -> sample text],
    prompt [P] and model [m], [prepare_data] returns exactly one request:
    custom_id [id1], method [POST], url [/v1/chat/completions], and a body
    with model [m] and the two messages system/[P], user/[sample text]. *)
Theorem prepare_data_scenario (key : option string) :
  prepare_data {| ocr_data := [("id1", "sample text")];
                  system_prompt := "P"; model := "m"; api_key := key |}
  = [ {| custom_id := "id1";
         method := "POST";
         url := "/v1/chat/completions";
         body := {| body_model := "m";
                    messages := [ {| role := "system"; content := "P" |};
                                  {| role := "user"; content := "sample text" |} ] |} |} ].
Proof. reflexivity. Qed.

(** ** Batch Submitter *)

(** C3, as stated, fails: on a 400 response [_create_batch] raises nothing
    and returns the decoded body as its normal result. *)
Lemma create_batch_non_2xx_returns :
  is_2xx (status_code bad_request) = false
  /\ _create_batch two_records (fun _ => Return bad_request) "file-abc"
     = Return error_body.
Proof. split; reflexivity. Qed.

(** C3, amended: when the batch-creation endpoint answers with a non-2xx
    status, [_create_batch] does not raise on it: its result is what
    [response.json()] gives, the decoded body as a normal return value
    (an exception only when the body is not JSON). *)
Theorem create_batch_ignores_status (self : OCRDataProcessor)
    (post : http_request -> result http_response)
    (input_file_id : string) (response : http_response) :
  is_2xx (status_code response) = false ->
  post {| req_url := "https://api.openai.com/v1/batches";
          req_headers := headers self;
          req_json := Some (JObj [ ("input_file_id", JStr input_file_id);
                                   ("endpoint", JStr "/v1/chat/completions");
                                   ("completion_window", JStr "24h") ]) |}
    = Return response ->
  _create_batch self post input_file_id = response_json response.
Proof.
  intros _ Hpost. unfold _create_batch. rewrite Hpost. reflexivity.
Qed.

Lemma create_batch_ignores_status_witness :
  _create_batch two_records (fun _ => Return bad_request) "file-abc"
  = response_json bad_request.
Proof.
  apply (create_batch_ignores_status two_records (fun _ => Return bad_request)
           "file-abc" bad_request); reflexivity.
Defined.

(** ** Completion Poller *)

(** *** One attempt *)

Lemma bind_Return {A B} (f : A -> result B) (a : A) : Return a ≫= f = f a.
Proof. reflexivity. Qed.

Lemma bind_Raise {A B} (f : A -> result B) (e : exn) : Raise e ≫= f = Raise e.
Proof. reflexivity. Qed.

Lemma check_batch_terminal (self : OCRDataProcessor)
    (get : http_request -> result http_response) (batch_id : string)
    (d s : json) :
  get_batch_details self get batch_id = Return d ->
  getitem d "status" = Return s ->
  py_in s ["completed"; "failed"] = true ->
  check_batch self get batch_id = Return d.
Proof.
  intros Hd Hs Hin. unfold check_batch.
  rewrite Hd, bind_Return, Hs, bind_Return, Hin. reflexivity.
Qed.

Lemma check_batch_pending (self : OCRDataProcessor)
    (get : http_request -> result http_response) (batch_id : string)
    (d s : json) :
  get_batch_details self get batch_id = Return d ->
  getitem d "status" = Return s ->
  py_in s ["completed"; "failed"] = false ->
  check_batch self get batch_id
  = Raise (BatchNotReadyException "Batch not ready yet, rechecking...").
Proof.
  intros Hd Hs Hin. unfold check_batch.
  rewrite Hd, bind_Return, Hs, bind_Return, Hin. reflexivity.
Qed.

Lemma check_batch_query_raises (self : OCRDataProcessor)
    (get : http_request -> result http_response) (batch_id : string) (e : exn) :
  get_batch_details self get batch_id = Raise e ->
  check_batch self get batch_id = Raise e.
Proof. intros He. unfold check_batch. rewrite He. reflexivity. Qed.

(** What one attempt can do, read backwards. *)
Lemma check_batch_returns_inv (self : OCRDataProcessor)
    (get : http_request -> result http_response) (batch_id : string) (d : json) :
  check_batch self get batch_id = Return d ->
  get_batch_details self get batch_id = Return d
  /\ exists s, getitem d "status" = Return s
               /\ py_in s ["completed"; "failed"] = true.
Proof.
  unfold check_batch.
  destruct (get_batch_details self get batch_id) as [d0|e];
    [rewrite bind_Return|discriminate].
  destruct (getitem d0 "status") as [s|e] eqn:Hs;
    [rewrite bind_Return|discriminate].
  destruct (py_in s ["completed"; "failed"]) eqn:Hin; [|discriminate].
  intros [= <-]. split; [reflexivity|]. exists s. split; [exact Hs|exact Hin].
Qed.

(** *** The retry loop *)

Section Retrying.
Context {A : Type} (fn : nat -> Q * result A).

Lemma retrying_returns (fuel n : nat) (t : Q) (a : A) :
  (fn n).2 = Return a ->
  retrying fn (S fuel) n t = Some ([Attempt n], Return a).
Proof. intros H. simpl. rewrite H. reflexivity. Qed.

Lemma retrying_reraises (fuel n : nat) (t : Q) (e : exn) :
  (fn n).2 = Raise e -> retry_if_exception_type e = false ->
  retrying fn (S fuel) n t = Some ([Attempt n], Raise e).
Proof. intros H He. simpl. rewrite H, He. reflexivity. Qed.

Lemma retrying_stops (fuel n : nat) (t : Q) (e : exn) :
  (fn n).2 = Raise e -> retry_if_exception_type e = true ->
  poll_stop (t + (fn n).1) = true ->
  retrying fn (S fuel) n t = Some ([Attempt n], Raise (RetryError e)).
Proof. intros H He Hs. simpl. rewrite H, He, Hs. reflexivity. Qed.

Lemma retrying_sleeps (fuel n : nat) (t : Q) (e : exn) :
  (fn n).2 = Raise e -> retry_if_exception_type e = true ->
  poll_stop (t + (fn n).1) = false ->
  retrying fn (S fuel) n t =
    match retrying fn fuel (S n) (t + (fn n).1 + inject_Z (poll_wait n)) with
    | Some (trace, r) => Some (Attempt n :: Sleep (poll_wait n) :: trace, r)
    | None => None
    end.
Proof. intros H He Hs. simpl. rewrite H, He, Hs. reflexivity. Qed.

(** The four ways an attempt can end, as an inversion principle on a
    finished run. *)
Lemma retrying_inv (fuel n : nat) (t : Q) (trace : list event) (r : result A) :
  retrying fn fuel n t = Some (trace, r) ->
  (exists a, (fn n).2 = Return a /\ trace = [Attempt n] /\ r = Return a)
  \/ (exists e, (fn n).2 = Raise e /\ retry_if_exception_type e = false
                /\ trace = [Attempt n] /\ r = Raise e)
  \/ (exists e, (fn n).2 = Raise e /\ retry_if_exception_type e = true
                /\ poll_stop (t + (fn n).1) = true
                /\ trace = [Attempt n] /\ r = Raise (RetryError e))
  \/ (exists e fuel' rest,
        (fn n).2 = Raise e /\ retry_if_exception_type e = true
        /\ poll_stop (t + (fn n).1) = false /\ fuel = S fuel'
        /\ retrying fn fuel' (S n) (t + (fn n).1 + inject_Z (poll_wait n))
           = Some (rest, r)
        /\ trace = Attempt n :: Sleep (poll_wait n) :: rest).
Proof.
  destruct fuel as [|fuel']; simpl; [discriminate|].
  destruct (fn n).2 as [a|e] eqn:Hfn.
  - intros [= <- <-]. left. eauto.
  - destruct (retry_if_exception_type e) eqn:He; simpl.
    + destruct (poll_stop (t + (fn n).1)) eqn:Hs.
      * intros [= <- <-]. right. right. left. eauto 10.
      * destruct (retrying fn fuel' (S n) _) as [[rest r']|] eqn:Hrec;
          [|discriminate].
        intros [= <- <-]. right. right. right. exists e, fuel', rest. eauto 10.
    + intros [= <- <-]. right. left. eauto 10.
Qed.

Lemma retrying_head (fuel n : nat) (t : Q) (trace : list event) (r : result A) :
  retrying fn fuel n t = Some (trace, r) ->
  exists rest, trace = Attempt n :: rest.
Proof.
  intros H. apply retrying_inv in H.
  destruct H as [(a & _ & -> & _)|[(e & _ & _ & -> & _)|
    [(e & _ & _ & _ & -> & _)|(e & f & rest & _ & _ & _ & _ & _ & ->)]]];
    eauto.
Qed.

(** More fuel does not change a finished run. *)
Lemma retrying_more_fuel (fuel fuel' n : nat) (t : Q)
    (x : list event * result A) :
  retrying fn fuel n t = Some x -> (fuel <= fuel')%nat ->
  retrying fn fuel' n t = Some x.
Proof.
  revert fuel' n t x. induction fuel as [|fuel IH]; intros fuel' n t x H Hle;
    [discriminate|].
  destruct fuel' as [|fuel']; [lia|]. simpl in *.
  destruct (fn n).2 as [a|e]; [exact H|].
  destruct (negb (retry_if_exception_type e)); [exact H|].
  destruct (poll_stop (t + (fn n).1)); [exact H|].
  destruct (retrying fn fuel (S n) _) as [[rest r]|] eqn:Hrec; [|discriminate].
  rewrite (IH fuel' _ _ _ Hrec) by lia. exact H.
Qed.

(** A run that returns a value returns what its last attempt returned. *)
Lemma retrying_return_last (fuel n : nat) (t : Q) (trace : list event) (a : A) :
  retrying fn fuel n t = Some (trace, Return a) ->
  exists m, last trace = Some (Attempt m) /\ (fn m).2 = Return a.
Proof.
  revert n t trace. induction fuel as [|fuel IH]; intros n t trace H;
    [discriminate|].
  apply retrying_inv in H.
  destruct H as [(a' & Hfn & -> & [= ->])|[(e & _ & _ & _ & [=])|
    [(e & _ & _ & _ & _ & [=])|(e & f & rest & _ & _ & _ & [= <-] & Hrec & ->)]]].
  - exists n. split; [reflexivity|exact Hfn].
  - destruct (IH _ _ _ Hrec) as (m & Hlast & Hm).
    exists m. split; [|exact Hm].
    destruct (retrying_head _ _ _ _ _ Hrec) as [rest' ->].
    exact Hlast.
Qed.

(** A run goes beyond an attempt only if the attempt ended in the
    exception [retry] accepts, and then it sleeps first. *)
Lemma retrying_second_event (fuel n : nat) (t : Q) (ev : event)
    (rest : list event) (r : result A) :
  retrying fn fuel n t = Some (Attempt n :: ev :: rest, r) ->
  ev = Sleep (poll_wait n)
  /\ exists e, (fn n).2 = Raise e /\ retry_if_exception_type e = true.
Proof.
  intros H. apply retrying_inv in H.
  destruct H as [(a & _ & [=] & _)|[(e & _ & _ & [=] & _)|
    [(e & _ & _ & _ & [=] & _)|(e & f & rest' & Hfn & He & _ & _ & _ & [= -> ->])]]].
  split; [reflexivity|]. exists e. split; assumption.
Qed.
End Retrying.

(** *** The clock of a run *)

Lemma poll_wait_nonneg (n : nat) : 0 <= poll_wait n.
Proof. unfold poll_wait, wait_exponential. lia. Qed.

Lemma poll_wait_at_most (n : nat) : poll_wait n <= 1800.
Proof. unfold poll_wait, wait_exponential. lia. Qed.

Lemma idle_before_mono (n m : nat) :
  (n <= m)%nat -> idle_before n <= idle_before m.
Proof.
  induction 1 as [|m _ IH]; [lia|].
  simpl. pose proof (poll_wait_nonneg m). lia.
Qed.

(** Before the 59th attempt the loop has slept 1 + 2 + ... + 1024 seconds
    and then 47 times 1800 seconds, which is more than the budget. *)
Lemma idle_before_59 : idle_before 59 = 86647.
Proof. vm_compute. reflexivity. Qed.

Lemma poll_stop_true (t : Q) : poll_stop t = true <-> (inject_Z 86400 <= t)%Q.
Proof. unfold poll_stop, stop_after_delay. apply Qle_bool_iff. Qed.

Lemma poll_stop_false (t : Q) : poll_stop t = false <-> (t < inject_Z 86400)%Q.
Proof.
  rewrite <- not_true_iff_false, poll_stop_true. split.
  - apply Qnot_le_lt.
  - apply Qlt_not_le.
Qed.

Section Clock.
Context {A : Type} (fn : nat -> Q * result A).

Lemma started_at_succ (n : nat) :
  (1 <= n)%nat ->
  started_at fn (S n) = (finished_at fn n + inject_Z (poll_wait n))%Q.
Proof. destruct n as [|n]; [lia|]. reflexivity. Qed.

(** A run that is entered on the clock stays on it: an attempt that is
    retried under the budget is followed by its sleep and by the next
    attempt. *)
Lemma retrying_retry_in_run (fuel n : nat) (trace : list event) (r : result A)
    (m : nat) (e : exn) :
  (1 <= n)%nat ->
  retrying fn fuel n (started_at fn n) = Some (trace, r) ->
  Attempt m ∈ trace ->
  (fn m).2 = Raise e -> retry_if_exception_type e = true ->
  poll_stop (finished_at fn m) = false ->
  exists pre post,
    trace = pre ++ Attempt m :: Sleep (poll_wait m) :: Attempt (S m) :: post.
Proof.
  intros Hn Hrun Hin Hfn He Hstop.
  revert n trace Hn Hrun Hin.
  induction fuel as [|fuel IH]; intros n trace Hn Hrun Hin; [discriminate|].
  apply retrying_inv in Hrun.
  destruct Hrun as [(a & Hfn' & -> & _)|[(e' & Hfn' & He' & -> & _)|
    [(e' & Hfn' & He' & Hs' & -> & _)|
     (e' & f & rest & Hfn' & He' & Hs' & [= <-] & Hrec & ->)]]].
  - apply list_elem_of_singleton in Hin as [= ->]. congruence.
  - apply list_elem_of_singleton in Hin as [= ->]. congruence.
  - apply list_elem_of_singleton in Hin as [= ->].
    unfold finished_at in Hstop. congruence.
  - fold (finished_at fn n) in Hrec. rewrite <- started_at_succ in Hrec by exact Hn.
    apply elem_of_cons in Hin as [[= ->]|Hin].
    + destruct (retrying_head _ _ _ _ _ _ Hrec) as [rest' ->].
      exists [], rest'. reflexivity.
    + apply elem_of_cons in Hin as [[=]|Hin].
      destruct (IH (S n) rest ltac:(lia) Hrec Hin) as (pre & post & ->).
      exists (Attempt n :: Sleep (poll_wait n) :: pre), post. reflexivity.
Qed.

(** A run in which every attempt ends in the retried exception ends at
    the first attempt that finishes at or past the budget, with
    [RetryError]. *)
Lemma retrying_timeout_in_run (fuel n : nat) (trace : list event) (r : result A) :
  (forall k, exists e, (fn k).2 = Raise e /\ retry_if_exception_type e = true) ->
  (1 <= n)%nat ->
  retrying fn fuel n (started_at fn n) = Some (trace, r) ->
  exists m e,
    (n <= m)%nat /\ last trace = Some (Attempt m)
    /\ (fn m).2 = Raise e /\ r = Raise (RetryError e)
    /\ poll_stop (finished_at fn m) = true
    /\ forall k, (n <= k < m)%nat -> poll_stop (finished_at fn k) = false.
Proof.
  intros Hall. revert n trace.
  induction fuel as [|fuel IH]; intros n trace Hn Hrun; [discriminate|].
  destruct (Hall n) as (e0 & Hfn0 & He0).
  apply retrying_inv in Hrun.
  destruct Hrun as [(a & Hfn' & _)|[(e' & Hfn' & He' & _)|
    [(e' & Hfn' & He' & Hs' & -> & ->)|
     (e' & f & rest & Hfn' & He' & Hs' & [= <-] & Hrec & ->)]]];
    try congruence.
  - exists n, e'. repeat split; try assumption; lia.
  - fold (finished_at fn n) in Hrec, Hs'.
    rewrite <- started_at_succ in Hrec by exact Hn.
    destruct (IH (S n) rest ltac:(lia) Hrec)
      as (m & e & Hle & Hlast & Hfn & -> & Hstop & Hbefore).
    exists m, e. repeat split; try assumption; try lia.
    + destruct (retrying_head _ _ _ _ _ _ Hrec) as [rest' ->]. exact Hlast.
    + intros k Hk. destruct (decide (k = n)) as [->|Hne]; [exact Hs'|].
      apply Hbefore. lia.
Qed.

Hypothesis durations : forall n, (0 <= (fn n).1)%Q.

(** Every run ends: with non-negative durations the loop is past the
    budget at the 59th attempt at the latest. *)
Lemma retrying_total (f n : nat) (t : Q) :
  (inject_Z (idle_before n) <= t)%Q -> (59 <= n + f)%nat ->
  exists x, retrying fn (S f) n t = Some x.
Proof.
  revert n t. induction f as [|f IH]; intros n t Ht Hn.
  - destruct (fn n).2 as [a|e] eqn:Hfn.
    + eexists. apply retrying_returns. exact Hfn.
    + destruct (retry_if_exception_type e) eqn:He.
      * eexists. apply (retrying_stops fn 0 n t e Hfn He).
        apply poll_stop_true.
        pose proof (idle_before_mono 59 n ltac:(lia)) as Hmono.
        rewrite idle_before_59 in Hmono.
        rewrite Zle_Qle in Hmono. pose proof (durations n) as Hd.
        apply Qle_trans with (y := inject_Z 86647).
        { rewrite <- Zle_Qle. lia. }
        apply Qle_trans with (y := inject_Z (idle_before n)); [exact Hmono|].
        apply Qle_trans with (y := t); [exact Ht|]. lra.
      * eexists. apply retrying_reraises; eassumption.
  - destruct (fn n).2 as [a|e] eqn:Hfn.
    + eexists. apply retrying_returns. exact Hfn.
    + destruct (retry_if_exception_type e) eqn:He.
      * destruct (poll_stop (t + (fn n).1)) eqn:Hs.
        -- eexists. apply retrying_stops; eassumption.
        -- rewrite (retrying_sleeps fn (S f) n t e Hfn He Hs).
           destruct (IH (S n) (t + (fn n).1 + inject_Z (poll_wait n))%Q)
             as [[trace r] ->]; [|lia|eauto].
           simpl idle_before. rewrite inject_Z_plus.
           pose proof (durations n) as Hd. lra.
      * eexists. apply retrying_reraises; eassumption.
Qed.
End Clock.

(** *** The decorated method *)

Lemma wait_terminates (self : OCRDataProcessor) (world : provider)
    (batch_id : string) (fuel : nat) :
  (forall n, (0 <= (world n).1)%Q) -> (59 <= fuel)%nat ->
  exists trace r,
    wait_for_batch_completion self world batch_id fuel = Some (trace, r).
Proof.
  intros Hdur Hfuel. destruct fuel as [|f]; [lia|].
  destruct (retrying_total (attempt self world batch_id) Hdur f 1 0)
    as [[trace r] Hrun]; [vm_compute; discriminate|lia|].
  exists trace, r. exact Hrun.
Qed.

(** C2, as stated, fails: a batch that stays [in_progress] makes the
    method raise, but what it raises is tenacity's [RetryError]; the
    program has no [BatchTimeoutError]. *)
Lemma timeout_raises_RetryError :
  exists trace e,
    wait_for_batch_completion two_records never_ready "batch_abc" 59
      = Some (trace, Raise e)
    /\ exn_class e = "RetryError"
    /\ exn_class e <> "BatchTimeoutError".
Proof.
  eexists _, _. split; [vm_compute; reflexivity|].
  split; [reflexivity|discriminate].
Qed.

(** C2, amended: if every status query reports a status other than
    [completed] and [failed], the method ends by raising tenacity's
    [RetryError] (around the last [BatchNotReadyException]) to its caller,
    at the first attempt that finishes 86400 seconds or more after the
    start: every earlier attempt finished under the budget.  59 attempts
    are always enough to get there. *)
Theorem wait_times_out (self : OCRDataProcessor) (world : provider)
    (batch_id : string) (fuel : nat) :
  (forall n, (0 <= (world n).1)%Q) ->
  (forall n, exists d s,
      get_batch_details self (world n).2 batch_id = Return d
      /\ getitem d "status" = Return s
      /\ py_in s ["completed"; "failed"] = false) ->
  (59 <= fuel)%nat ->
  exists trace m,
    wait_for_batch_completion self world batch_id fuel
      = Some (trace, Raise (RetryError
                (BatchNotReadyException "Batch not ready yet, rechecking...")))
    /\ last trace = Some (Attempt m)
    /\ poll_stop (finished_at (attempt self world batch_id) m) = true
    /\ forall k, (1 <= k < m)%nat ->
         poll_stop (finished_at (attempt self world batch_id) k) = false.
Proof.
  intros Hdur Hpending Hfuel.
  destruct (wait_terminates self world batch_id fuel Hdur Hfuel)
    as (trace & r & Hrun).
  assert (forall k, (attempt self world batch_id k).2
            = Raise (BatchNotReadyException "Batch not ready yet, rechecking..."))
    as Hall.
  { intros k. destruct (Hpending k) as (d & s & Hd & Hs & Hin).
    apply (check_batch_pending _ _ _ d s); assumption. }
  destruct (retrying_timeout_in_run (attempt self world batch_id) fuel 1 trace r)
    as (m & e & _ & Hlast & Hfn & -> & Hstop & Hbefore).
  - intros k. eexists. split; [apply Hall|reflexivity].
  - lia.
  - exact Hrun.
  - exists trace, m. rewrite Hall in Hfn. injection Hfn as <-.
    repeat split; assumption.
Qed.

Lemma wait_times_out_witness :
  exists trace m,
    wait_for_batch_completion two_records never_ready "batch_abc" 59
      = Some (trace, Raise (RetryError
                (BatchNotReadyException "Batch not ready yet, rechecking...")))
    /\ last trace = Some (Attempt m)
    /\ poll_stop (finished_at (attempt two_records never_ready "batch_abc") m) = true
    /\ forall k, (1 <= k < m)%nat ->
         poll_stop (finished_at (attempt two_records never_ready "batch_abc") k) = false.
Proof.
  apply (wait_times_out two_records never_ready "batch_abc" 59).
  - intros n. simpl. lra.
  - intros n. exists (batch_object "in_progress"), (JStr "in_progress").
    repeat split; reflexivity.
  - lia.
Defined.

(** C4, as stated, fails: the 59th query of this run reports
    [in_progress], a non-terminal status, and the run ends there, without
    another wait or query, because the budget is used up (the next query
    would have reported [completed]). *)
Lemma pending_report_without_retry :
  exists trace e,
    wait_for_batch_completion two_records ready_late "batch_abc" 60
      = Some (trace, Raise e)
    /\ last trace = Some (Attempt 59)
    /\ get_batch_details two_records (ready_late 59%nat).2 "batch_abc"
       = Return (batch_object "in_progress")
    /\ get_batch_details two_records (ready_late 60%nat).2 "batch_abc"
       = Return (batch_object "completed").
Proof.
  eexists _, _. split; [vm_compute; reflexivity|].
  repeat split; reflexivity.
Qed.

(** C4, amended: for every sequence of status-query results the method
    ends; it returns only with the details of a query that reported
    [completed] or [failed]; and every query it makes that reports another
    status while the elapsed time at the end of that check is under 86400
    seconds is followed by the wait and by one more query.  (At or past
    the budget the run ends with [RetryError] instead.) *)
Theorem poll_terminal_or_retry (self : OCRDataProcessor) (world : provider)
    (batch_id : string) (fuel : nat) :
  (forall n, (0 <= (world n).1)%Q) ->
  (59 <= fuel)%nat ->
  exists trace r,
    wait_for_batch_completion self world batch_id fuel = Some (trace, r)
    /\ (forall d, r = Return d ->
          exists m s,
            last trace = Some (Attempt m)
            /\ get_batch_details self (world m).2 batch_id = Return d
            /\ getitem d "status" = Return s
            /\ py_in s ["completed"; "failed"] = true)
    /\ (forall m d s,
          Attempt m ∈ trace ->
          get_batch_details self (world m).2 batch_id = Return d ->
          getitem d "status" = Return s ->
          py_in s ["completed"; "failed"] = false ->
          poll_stop (finished_at (attempt self world batch_id) m) = false ->
          exists pre post,
            trace = pre ++ Attempt m :: Sleep (poll_wait m)
                          :: Attempt (S m) :: post).
Proof.
  intros Hdur Hfuel.
  destruct (wait_terminates self world batch_id fuel Hdur Hfuel)
    as (trace & r & Hrun).
  exists trace, r. split; [exact Hrun|]. split.
  - intros d ->.
    destruct (retrying_return_last _ _ _ _ _ _ Hrun) as (m & Hlast & Hm).
    apply check_batch_returns_inv in Hm as (Hd & s & Hs & Hin).
    exists m, s. repeat split; assumption.
  - intros m d s Hin Hd Hs Hpend Hstop.
    apply (retrying_retry_in_run (attempt self world batch_id) fuel 1 trace r m
             (BatchNotReadyException "Batch not ready yet, rechecking...")).
    + lia.
    + exact Hrun.
    + exact Hin.
    + apply (check_batch_pending _ _ _ d s); assumption.
    + reflexivity.
    + exact Hstop.
Qed.

Lemma poll_terminal_or_retry_witness :
  exists trace r,
    wait_for_batch_completion two_records fails_soon "batch_abc" 59
      = Some (trace, r)
    /\ (forall d, r = Return d ->
          exists m s,
            last trace = Some (Attempt m)
            /\ get_batch_details two_records (fails_soon m).2 "batch_abc" = Return d
            /\ getitem d "status" = Return s
            /\ py_in s ["completed"; "failed"] = true)
    /\ (forall m d s,
          Attempt m ∈ trace ->
          get_batch_details two_records (fails_soon m).2 "batch_abc" = Return d ->
          getitem d "status" = Return s ->
          py_in s ["completed"; "failed"] = false ->
          poll_stop (finished_at (attempt two_records fails_soon "batch_abc") m) = false ->
          exists pre post,
            trace = pre ++ Attempt m :: Sleep (poll_wait m)
                          :: Attempt (S m) :: post).
Proof.
  apply (poll_terminal_or_retry two_records fails_soon "batch_abc" 59).
  - intros n. simpl. lra.
  - lia.
Defined.

(** The run of that witness, step by step. *)
Example fails_soon_run :
  wait_for_batch_completion two_records fails_soon "batch_abc" 59
  = Some ([Attempt 1; Sleep 1; Attempt 2], Return (batch_object "failed")).
Proof. vm_compute. reflexivity. Qed.

(** C5: only a [BatchNotReadyException] drives the retry loop.  An
    exception of the status query that is not a [BatchNotReadyException]
    ends the loop at that attempt: it is raised to the caller as it is,
    with no sleep and no further query.  A run goes on after an attempt
    only if that attempt ended in [BatchNotReadyException].  And an
    attempt that ends in [BatchNotReadyException] under the budget does
    make the loop go on: it sleeps [poll_wait] seconds and makes the next
    attempt, whose outcome is the outcome of the run. *)
Theorem poll_propagates_other_exceptions (self : OCRDataProcessor)
    (world : provider) (batch_id : string) (e : exn) (fuel n : nat) (t : Q) :
  get_batch_details self (world n).2 batch_id = Raise e ->
  retry_if_exception_type e = false ->
  poll_from self world batch_id (S fuel) n t = Some ([Attempt n], Raise e)
  /\ (forall fuel' m t' ev rest r,
        poll_from self world batch_id fuel' m t' = Some (Attempt m :: ev :: rest, r) ->
        ev = Sleep (poll_wait m)
        /\ exists msg, check_batch self (world m).2 batch_id
                       = Raise (BatchNotReadyException msg))
  /\ (forall fuel' m t' msg,
        check_batch self (world m).2 batch_id = Raise (BatchNotReadyException msg) ->
        poll_stop (t' + (world m).1) = false ->
        poll_from self world batch_id (S fuel') m t'
        = match poll_from self world batch_id fuel' (S m)
                  (t' + (world m).1 + inject_Z (poll_wait m)) with
          | Some (trace, r) => Some (Attempt m :: Sleep (poll_wait m) :: trace, r)
          | None => None
          end
        /\ forall trace r,
             poll_from self world batch_id (S fuel') m t' = Some (trace, r) ->
             exists rest,
               trace = Attempt m :: Sleep (poll_wait m) :: Attempt (S m) :: rest).
Proof.
  intros Hq He. split; [|split].
  - apply retrying_reraises; [|exact He].
    apply check_batch_query_raises. exact Hq.
  - intros fuel' m t' ev rest r Hrun.
    apply retrying_second_event in Hrun as (-> & e' & Hfn & He').
    split; [reflexivity|].
    destruct e'; try discriminate. eexists. exact Hfn.
  - intros fuel' m t' msg Hcheck Hstop.
    assert (poll_from self world batch_id (S fuel') m t'
            = match poll_from self world batch_id fuel' (S m)
                      (t' + (world m).1 + inject_Z (poll_wait m)) with
              | Some (trace, r) =>
                  Some (Attempt m :: Sleep (poll_wait m) :: trace, r)
              | None => None
              end) as Hstep.
    { unfold poll_from.
      apply (retrying_sleeps (attempt self world batch_id) fuel' m t'
               (BatchNotReadyException msg)); [exact Hcheck|reflexivity|exact Hstop]. }
    split; [exact Hstep|].
    intros trace r Hrun. rewrite Hstep in Hrun.
    destruct (poll_from self world batch_id fuel' (S m) _)
      as [[next r']|] eqn:Hnext; [|discriminate].
    injection Hrun as <- <-.
    destruct (retrying_head _ _ _ _ _ _ Hnext) as [rest ->].
    exists rest. reflexivity.
Qed.

Lemma poll_propagates_other_exceptions_witness :
  poll_from two_records breaks "batch_abc" 1 2 1
    = Some ([Attempt 2], Raise (RequestException "ConnectionError"))
  /\ (forall fuel' m t' ev rest r,
        poll_from two_records breaks "batch_abc" fuel' m t'
          = Some (Attempt m :: ev :: rest, r) ->
        ev = Sleep (poll_wait m)
        /\ exists msg, check_batch two_records (breaks m).2 "batch_abc"
                       = Raise (BatchNotReadyException msg))
  /\ (forall fuel' m t' msg,
        check_batch two_records (breaks m).2 "batch_abc"
          = Raise (BatchNotReadyException msg) ->
        poll_stop (t' + (breaks m).1) = false ->
        poll_from two_records breaks "batch_abc" (S fuel') m t'
        = match poll_from two_records breaks "batch_abc" fuel' (S m)
                  (t' + (breaks m).1 + inject_Z (poll_wait m)) with
          | Some (trace, r) => Some (Attempt m :: Sleep (poll_wait m) :: trace, r)
          | None => None
          end
        /\ forall trace r,
             poll_from two_records breaks "batch_abc" (S fuel') m t'
               = Some (trace, r) ->
             exists rest,
               trace = Attempt m :: Sleep (poll_wait m) :: Attempt (S m) :: rest).
Proof.
  apply (poll_propagates_other_exceptions two_records breaks "batch_abc"
           (RequestException "ConnectionError") 0 2 1); reflexivity.
Defined.

(** The whole run against that provider: one retry, then the transport
    error of the second query reaches the caller. *)
Example breaks_run :
  wait_for_batch_completion two_records breaks "batch_abc" 59
  = Some ([Attempt 1; Sleep 1; Attempt 2],
          Raise (RequestException "ConnectionError")).
Proof. vm_compute. reflexivity. Qed.

(** C9: when a status query reports [completed] or [failed], the method
    returns normally, and what it returns is the whole object the query
    gave, for [failed] as for [completed]; telling the two apart is left
    to the caller. *)
Theorem wait_returns_details_on_terminal (self : OCRDataProcessor)
    (world : provider) (batch_id : string) (d : json) (s : string)
    (fuel n : nat) (t : Q) :
  get_batch_details self (world n).2 batch_id = Return d ->
  getitem d "status" = Return (JStr s) ->
  s = "completed" \/ s = "failed" ->
  poll_from self world batch_id (S fuel) n t = Some ([Attempt n], Return d).
Proof.
  intros Hd Hs Hterm. apply retrying_returns.
  apply (check_batch_terminal _ _ _ d (JStr s)); [exact Hd|exact Hs|].
  destruct Hterm as [-> | ->]; reflexivity.
Qed.

Lemma wait_returns_details_on_terminal_witness :
  poll_from two_records fails_soon "batch_abc" 1 2 (3 # 2)
  = Some ([Attempt 2], Return (batch_object "failed")).
Proof.
  apply (wait_returns_details_on_terminal two_records fails_soon "batch_abc"
           (batch_object "failed") "failed" 0 2 (3 # 2)).
  - reflexivity.
  - reflexivity.
  - right. reflexivity.
Defined.

(** The same for a batch that is [completed] at the first query. *)
Example completed_at_once :
  wait_for_batch_completion two_records (fun _ => (0%Q, answers "completed"))
    "batch_abc" 1
  = Some ([Attempt 1], Return (batch_object "completed")).
Proof. reflexivity. Qed.

(** ** Result Assembler *)

(** *** Columns and the final dictionary *)

Lemma mapM_Return {A B} (f : A -> result B) (l : list A) (ys : list B) :
  mapM f l = Return ys <-> Forall2 (fun x y => f x = Return y) l ys.
Proof.
  revert ys. induction l as [|x l IH]; intros ys; simpl.
  - split.
    + intros [= <-]. constructor.
    + intros H. inversion H. reflexivity.
  - split.
    + destruct (f x) as [y|e] eqn:Hfx; [rewrite bind_Return|discriminate].
      destruct (mapM f l) as [k|e] eqn:Hl; [rewrite bind_Return|discriminate].
      intros [= <-]. constructor; [exact Hfx|]. apply IH. reflexivity.
    + intros H. inversion H as [|? y ? k Hfx Hrest]; subst.
      rewrite Hfx, bind_Return. apply IH in Hrest. rewrite Hrest.
      reflexivity.
Qed.

Lemma to_dict_snoc (pairs : list (label * json)) (k : label) (v : json) :
  to_dict (pairs ++ [(k, v)]) = <[k := v]> (to_dict pairs).
Proof. unfold to_dict. rewrite foldl_app. reflexivity. Qed.

Lemma to_dict_lookup_other (pairs : list (label * json)) (d : gmap label json)
    (k : label) :
  k ∉ pairs.*1 ->
  foldl (fun d kv => <[kv.1 := kv.2]> d) d pairs !! k = d !! k.
Proof.
  revert d. induction pairs as [|[k' v'] pairs IH]; intros d Hk; [reflexivity|].
  simpl in *. rewrite IH.
  - apply lookup_insert_ne. intros ->. apply Hk. left.
  - intros Hin. apply Hk. right. exact Hin.
Qed.

(** The value under a key is that of the last pair with the key. *)
Lemma to_dict_lookup_last (pre post : list (label * json)) (k : label) (v : json) :
  k ∉ post.*1 -> to_dict (pre ++ (k, v) :: post) !! k = Some v.
Proof.
  intros Hk. unfold to_dict. rewrite foldl_app. simpl.
  rewrite to_dict_lookup_other by exact Hk. apply lookup_insert_eq.
Qed.

Lemma to_dict_dom (pairs : list (label * json)) :
  dom (to_dict pairs) = list_to_set pairs.*1.
Proof.
  induction pairs as [|[k v] pairs IH] using rev_ind; [apply dom_empty_L|].
  rewrite to_dict_snoc, dom_insert_L, IH, fmap_app, list_to_set_app_L.
  simpl. rewrite (right_id_L ∅ (∪)). apply (comm_L (∪)).
Qed.

(** *** What [process_responses] returns *)

Section AssemblerFacts.
Variable loads : json -> result json.

Lemma parse_rows_split (df : list output_row) (parsed : list json) :
  Forall2 (fun row v => parse_row loads row = Return v) df parsed <->
  exists texts,
    Forall2 (fun row c => message_content (row_response row) = Return c) df texts
    /\ Forall2 (fun c v => loads c = Return v) texts parsed.
Proof.
  split.
  - induction 1 as [|row v df parsed Hrow _ (texts & H1 & H2)].
    + exists []. split; constructor.
    + unfold parse_row in Hrow.
      destruct (message_content (row_response row)) as [c|e] eqn:Hc;
        [rewrite bind_Return in Hrow|discriminate].
      exists (c :: texts). split; constructor; assumption.
  - intros (texts & H1 & H2). revert parsed H2.
    induction H1 as [|row c df texts Hc _ IH]; intros parsed H2.
    + inversion H2. constructor.
    + inversion H2 as [|? v ? parsed' Hv Hrest]; subst.
      constructor; [|apply IH; exact Hrest].
      unfold parse_row. rewrite Hc, bind_Return. exact Hv.
Qed.

(** The method returns exactly when the frame has a row and both
    lambdas return on every row; the dictionary is then built from the
    [custom_id] column and the parsed column. *)
Lemma process_responses_Return (df : list output_row) (m : gmap label json) :
  process_responses loads df = Return m <->
  df <> [] /\ exists parsed,
    Forall2 (fun row v => parse_row loads row = Return v) df parsed
    /\ m = to_dict (zip (row_custom_id <$> df) parsed).
Proof.
  destruct df as [|row df]; [split; [discriminate|intros [[] _]; reflexivity]|].
  unfold process_responses.
  set (rows := row :: df). split.
  - destruct (mapM _ rows) as [texts|e] eqn:Htexts;
      [rewrite bind_Return|discriminate].
    destruct (mapM loads texts) as [parsed|e] eqn:Hparsed;
      [rewrite bind_Return|discriminate].
    intros [= <-]. split; [discriminate|]. exists parsed.
    split; [|reflexivity].
    apply parse_rows_split. exists texts.
    split; [apply mapM_Return in Htexts|apply mapM_Return in Hparsed]; assumption.
  - intros (_ & parsed & Hrows & ->).
    apply parse_rows_split in Hrows as (texts & H1 & H2).
    apply mapM_Return in H1. apply mapM_Return in H2.
    rewrite H1, bind_Return, H2, bind_Return. reflexivity.
Qed.

Lemma parse_rows_exist (df : list output_row) :
  (forall row, row ∈ df -> exists v, parse_row loads row = Return v) ->
  exists parsed, Forall2 (fun row v => parse_row loads row = Return v) df parsed.
Proof.
  induction df as [|row df IH]; intros Hall.
  - exists []. constructor.
  - destruct (Hall row) as [v Hv]; [left|].
    destruct IH as [parsed Hparsed].
    { intros r Hr. apply Hall. right. exact Hr. }
    exists (v :: parsed). constructor; assumption.
Qed.

(** The keys of the result are the cells of the [custom_id] column. *)
Lemma process_responses_keys (df : list output_row) (m : gmap label json) :
  process_responses loads df = Return m ->
  dom m = list_to_set (row_custom_id <$> df).
Proof.
  intros H. apply process_responses_Return in H as (_ & parsed & Hrows & ->).
  rewrite to_dict_dom, fst_zip; [reflexivity|].
  rewrite length_fmap. apply Forall2_length in Hrows. lia.
Qed.

(** The value under the id of [row] is what was parsed from the last
    row with that id. *)
Lemma process_responses_lookup (pre post : list output_row) (row : output_row)
    (m : gmap label json) :
  process_responses loads (pre ++ row :: post) = Return m ->
  (forall r, r ∈ post -> row_custom_id r <> row_custom_id row) ->
  exists v, parse_row loads row = Return v /\ m !! row_custom_id row = Some v.
Proof.
  intros H Hlast.
  apply process_responses_Return in H as (_ & parsed & Hrows & ->).
  apply Forall2_app_inv_l in Hrows as (vs1 & vs2 & Hpre & Hrest & ->).
  apply Forall2_cons_inv_l in Hrest as (v & vs3 & Hv & Hpost & ->).
  exists v. split; [exact Hv|].
  rewrite fmap_app, fmap_cons.
  rewrite zip_with_app by (rewrite length_fmap; eapply Forall2_length; eassumption).
  simpl. apply to_dict_lookup_last.
  rewrite fst_zip.
  - intros Hin. apply list_elem_of_fmap in Hin as (r & Heq & Hr).
    apply (Hlast r Hr). symmetry. exact Heq.
  - rewrite length_fmap. apply Forall2_length in Hpost. lia.
Qed.
End AssemblerFacts.

(** *** The claims on result assembly *)

(** C10: when the frame has two (or more) rows with the same [custom_id],
    and both lambdas return on every row, [process_responses] returns
    normally, and the dictionary binds that [custom_id] to what was parsed
    from the last such row: the earlier rows are overwritten, nothing is
    reported or rejected. *)
Theorem process_responses_last_wins (loads : json -> result json)
    (pre mid post : list output_row) (first last_row : output_row) :
  row_custom_id first = row_custom_id last_row ->
  (forall r, r ∈ post -> row_custom_id r <> row_custom_id last_row) ->
  (forall r, r ∈ pre ++ first :: mid ++ last_row :: post ->
             exists v, parse_row loads r = Return v) ->
  exists m v,
    process_responses loads (pre ++ first :: mid ++ last_row :: post) = Return m
    /\ parse_row loads last_row = Return v
    /\ m !! row_custom_id first = Some v.
Proof.
  intros Hsame Hlast Hall.
  destruct (parse_rows_exist loads _ Hall) as [parsed Hparsed].
  assert (pre ++ first :: mid ++ last_row :: post
          = (pre ++ first :: mid) ++ last_row :: post) as Hdf.
  { rewrite <- app_assoc. reflexivity. }
  rewrite Hdf in *.
  assert (process_responses loads ((pre ++ first :: mid) ++ last_row :: post)
          = Return (to_dict (zip (row_custom_id <$>
                       (pre ++ first :: mid) ++ last_row :: post) parsed)))
    as Hrun.
  { apply process_responses_Return. split.
    - destruct pre; discriminate.
    - exists parsed. split; [exact Hparsed|reflexivity]. }
  destruct (process_responses_lookup loads _ _ _ _ Hrun Hlast) as (v & Hv & Hm).
  eexists _, v. split; [exact Hrun|]. split; [exact Hv|].
  rewrite Hsame. exact Hm.
Qed.

Lemma process_responses_last_wins_witness :
  exists m v,
    process_responses json_repair.loads
      ([] ++ {| row_custom_id := LStr "a";
                row_response := response_with (JStr well_formed_content) |}
          :: [] ++ {| row_custom_id := LStr "a";
                      row_response := response_with (JStr "[2]") |} :: [])
      = Return m
    /\ parse_row json_repair.loads
         {| row_custom_id := LStr "a";
            row_response := response_with (JStr "[2]") |} = Return v
    /\ m !! LStr "a" = Some v.
Proof.
  apply (process_responses_last_wins json_repair.loads [] [] []
           {| row_custom_id := LStr "a";
              row_response := response_with (JStr well_formed_content) |}
           {| row_custom_id := LStr "a";
              row_response := response_with (JStr "[2]") |}).
  - reflexivity.
  - intros r Hr. inversion Hr.
  - intros r Hr. simpl in Hr.
    apply elem_of_cons in Hr as [->|Hr].
    { exists x_is_1. vm_compute. reflexivity. }
    apply elem_of_cons in Hr as [->|Hr].
    { exists (JArr [JInt 2]). vm_compute. reflexivity. }
    inversion Hr.
Defined.

(** The second of the two rows is the one that is kept. *)
Example last_row_is_kept :
  parse_row json_repair.loads
    {| row_custom_id := LStr "a"; row_response := response_with (JStr "[2]") |}
  = Return (JArr [JInt 2]).
Proof. vm_compute. reflexivity. Qed.

Lemma to_dict_two (k1 k2 : label) (v : json) :
  to_dict [(k1, v); (k2, v)] !! k1 = Some v
  /\ to_dict [(k1, v); (k2, v)] !! k2 = Some v.
Proof.
  unfold to_dict. simpl. split; [|apply lookup_insert_eq].
  destruct (decide (k2 = k1)) as [->|Hne].
  - apply lookup_insert_eq.
  - rewrite lookup_insert_ne by exact Hne. apply lookup_insert_eq.
Qed.

(** What the tolerant parser makes of the two contents: the strict decoder
    reads the first and rejects the second, which is then repaired. *)
Lemma loads_well_formed :
  json_repair.loads (JStr well_formed_content) = Return x_is_1.
Proof. vm_compute. reflexivity. Qed.

Lemma loads_malformed :
  json_repair.json_loads malformed_content = None
  /\ json_repair.loads (JStr malformed_content) = Return x_is_1.
Proof. split; vm_compute; reflexivity. Qed.

(** C8: for an output file with a line of [custom_id] [a] whose message
    content is the well-formed text and another line whose message
    content is the malformed text, in either order, [process_responses]
    does not fail: it returns a dictionary that maps [a] to the object
    with [x] = 1, and the malformed line's id to the same object, which
    the tolerant parser recovered from a text the strict decoder
    rejects. *)
Theorem process_responses_repairs (ra rb : json) (other : label)
    (df : list output_row) :
  message_content ra = Return (JStr well_formed_content) ->
  message_content rb = Return (JStr malformed_content) ->
  df ≡ₚ [ {| row_custom_id := LStr "a"; row_response := ra |};
          {| row_custom_id := other; row_response := rb |} ] ->
  exists m,
    process_responses json_repair.loads df = Return m
    /\ m !! LStr "a" = Some x_is_1
    /\ m !! other = Some x_is_1
    /\ json_repair.json_loads malformed_content = None
    /\ json_repair.loads (JStr malformed_content) = Return x_is_1.
Proof.
  intros Ha Hb Hperm. symmetry in Hperm.
  destruct loads_malformed as [Hstrict Hrepair].
  apply Permutation_length_2_inv in Hperm as [-> | ->].
  - exists (to_dict [(LStr "a", x_is_1); (other, x_is_1)]).
    split; [|split; [apply to_dict_two|split; [apply to_dict_two|split; assumption]]].
    apply process_responses_Return. split; [discriminate|].
    exists [x_is_1; x_is_1]. split; [|reflexivity].
    repeat constructor; unfold parse_row; simpl row_response.
    + rewrite Ha, bind_Return. apply loads_well_formed.
    + rewrite Hb, bind_Return. exact Hrepair.
  - exists (to_dict [(other, x_is_1); (LStr "a", x_is_1)]).
    split; [|split; [apply to_dict_two|split; [apply to_dict_two|split; assumption]]].
    apply process_responses_Return. split; [discriminate|].
    exists [x_is_1; x_is_1]. split; [|reflexivity].
    repeat constructor; unfold parse_row; simpl row_response.
    + rewrite Hb, bind_Return. exact Hrepair.
    + rewrite Ha, bind_Return. apply loads_well_formed.
Qed.

Lemma process_responses_repairs_witness :
  exists m,
    process_responses json_repair.loads
      [ {| row_custom_id := LStr "a";
           row_response := response_with (JStr well_formed_content) |};
        {| row_custom_id := LStr "b";
           row_response := response_with (JStr malformed_content) |} ] = Return m
    /\ m !! LStr "a" = Some x_is_1
    /\ m !! LStr "b" = Some x_is_1
    /\ json_repair.json_loads malformed_content = None
    /\ json_repair.loads (JStr malformed_content) = Return x_is_1.
Proof.
  apply (process_responses_repairs
           (response_with (JStr well_formed_content))
           (response_with (JStr malformed_content)) (LStr "b")); reflexivity.
Defined.

(** *** Round trip of the ids *)

(** When the [custom_id] column of the frame holds the submitted ids as
    strings, every request's id is a key of the result and the result has
    no other key. *)
Lemma string_ids_round_trip (self : OCRDataProcessor)
    (loads : json -> result json) (df : list output_row) (m : gmap label json) :
  row_custom_id <$> df ≡ₚ LStr <$> custom_ids (prepare_data self) ->
  process_responses loads df = Return m ->
  dom m = list_to_set (LStr <$> (ocr_data self).*1)
  /\ forall req, req ∈ prepare_data self -> is_Some (m !! LStr (custom_id req)).
Proof.
  intros Hperm Hrun.
  apply process_responses_keys in Hrun as Hdom.
  assert (dom m = list_to_set (LStr <$> (ocr_data self).*1)) as Hkeys.
  { rewrite Hdom, <- prepare_data_custom_ids.
    apply set_eq. intros k. rewrite !elem_of_list_to_set, Hperm. reflexivity. }
  split; [exact Hkeys|].
  intros req Hreq. apply elem_of_dom. rewrite Hkeys, elem_of_list_to_set.
  rewrite <- prepare_data_custom_ids.
  apply list_elem_of_fmap_2. unfold custom_ids. apply list_elem_of_fmap_2.
  exact Hreq.
Qed.

(** When the column was read as integers, no string is a key of the
    result. *)
Lemma converted_column_has_no_string_key (loads : json -> result json)
    (df : list output_row) (m : gmap label json) (s : string) :
  (forall row, row ∈ df -> exists z, row_custom_id row = LInt z) ->
  process_responses loads df = Return m ->
  m !! LStr s = None.
Proof.
  intros Hint Hrun. apply process_responses_keys in Hrun.
  apply not_elem_of_dom. rewrite Hrun, elem_of_list_to_set.
  intros Hin. apply list_elem_of_fmap in Hin as (row & Heq & Hrow).
  destruct (Hint row Hrow) as [z Hz]. congruence.
Qed.

(** Two ids that read as the same number, such as [7] and [07], end up
    under one key: one of the two records is lost. *)
Example leading_zero_collides :
  exists m,
    process_responses json_repair.loads
      [ {| row_custom_id := LInt 7;
           row_response := response_with (JStr well_formed_content) |};
        {| row_custom_id := LInt 7;
           row_response := response_with (JStr "[2]") |} ] = Return m
    /\ dom m = {[ LInt 7 ]}.
Proof.
  eexists. split; [reflexivity|].
  unfold to_dict. simpl. rewrite !dom_insert_L, dom_empty_L.
  apply set_eq. intros k. rewrite !elem_of_union, !elem_of_singleton, elem_of_empty.
  tauto.
Qed.

(** C1: the round trip of [custom_id] from [prepare_data] to the keys of
    [process_responses] fails for a record id made of digits.
    [prepare_data] submits the id as the string [7], and the provider
    writes that string in its output line; [read_json], left to infer the
    column types, reads a column of such ids as integers, so the frame's
    cell is the number 7.  The result is keyed by that number: the
    submitted [custom_id], the string, is not a key of it. *)
Theorem numeric_custom_id_not_round_tripped :
  custom_ids (prepare_data numeric_id) = ["7"]
  /\ exists m,
       process_responses json_repair.loads
         [ {| row_custom_id := LInt 7;
              row_response := response_with (JStr well_formed_content) |} ]
         = Return m
       /\ m !! LInt 7 = Some x_is_1
       /\ m !! LStr "7" = None.
Proof.
  split; [reflexivity|].
  exists (to_dict [(LInt 7, x_is_1)]). split; [|split].
  - apply process_responses_Return. split; [discriminate|].
    exists [x_is_1]. split; [|reflexivity].
    repeat constructor.
  - apply lookup_insert_eq.
  - unfold to_dict. simpl. rewrite lookup_insert_ne by discriminate.
    apply lookup_empty.
Qed.

(** * Further properties *)

(** ** The wait between two checks *)

Lemma pow2_ge_2048 (k : Z) : 11 <= k -> 2048 <= 2 ^ k.
Proof.
  intros Hk. replace k with (11 + (k - 11)) by lia.
  rewrite Z.pow_add_r by lia.
  assert (0 < 2 ^ (k - 11)) by (apply Z.pow_pos_nonneg; lia).
  change (2 ^ 11) with 2048. lia.
Qed.

(** X1: the wait after attempt [n] is [2 ^ (n - 1)] seconds for the first
    eleven attempts (1, 2, 4, ..., 1024) and 1800 seconds from the
    twelfth on; it never decreases from one attempt to the next. *)
Theorem poll_wait_doubles_then_caps (n : nat) :
  (1 <= n)%nat ->
  poll_wait n = (if (n <=? 11)%nat then 2 ^ (Z.of_nat n - 1) else 1800)
  /\ poll_wait n <= poll_wait (S n)
  /\ 1 <= poll_wait n <= 1800.
Proof.
  intros Hn. unfold poll_wait, wait_exponential.
  assert (forall k, 0 <= k -> 0 < 2 ^ k) as Hpos
    by (intros k Hk; apply Z.pow_pos_nonneg; lia).
  assert (2 ^ (Z.of_nat (S n) - 1) = 2 * 2 ^ (Z.of_nat n - 1)) as Hdouble.
  { replace (Z.of_nat (S n) - 1) with (Z.succ (Z.of_nat n - 1)) by lia.
    apply Z.pow_succ_r. lia. }
  pose proof (Hpos (Z.of_nat n - 1) ltac:(lia)) as Hp.
  split; [|split; lia].
  destruct (n <=? 11)%nat eqn:Hle.
  - apply Nat.leb_le in Hle.
    assert (2 ^ (Z.of_nat n - 1) <= 2 ^ 10) as Hsmall
      by (apply Z.pow_le_mono_r; lia).
    change (2 ^ 10) with 1024 in Hsmall. lia.
  - apply Nat.leb_gt in Hle.
    pose proof (pow2_ge_2048 (Z.of_nat n - 1) ltac:(lia)). lia.
Qed.

Lemma poll_wait_doubles_then_caps_witness :
  poll_wait 11 = (if (11 <=? 11)%nat then 2 ^ (Z.of_nat 11 - 1) else 1800)
  /\ poll_wait 11 <= poll_wait 12
  /\ 1 <= poll_wait 11 <= 1800.
Proof. apply (poll_wait_doubles_then_caps 11). lia. Defined.

(** ** The shape of a run *)

Lemma attempts_schedule (n c : nat) : attempts (schedule n c) = S c.
Proof.
  revert n. induction c as [|c IH]; intros n; [reflexivity|].
  simpl. rewrite IH. reflexivity.
Qed.

Lemma slept_schedule (n c : nat) :
  slept (schedule n c) = idle_before (n + c) - idle_before n.
Proof.
  revert n. induction c as [|c IH]; intros n; simpl.
  - rewrite Nat.add_0_r. lia.
  - rewrite IH. rewrite Nat.add_succ_r. simpl. lia.
Qed.

Section RunShape.
Context {A : Type} (fn : nat -> Q * result A).

(** A finished run that was entered on the clock is a schedule: every
    attempt before the one it stops at was retried under the budget. *)
Lemma retrying_shape (fuel n : nat) (trace : list event) (r : result A) :
  (1 <= n)%nat ->
  retrying fn fuel n (started_at fn n) = Some (trace, r) ->
  exists c,
    trace = schedule n c /\ (c < fuel)%nat
    /\ (forall k, (n <= k < n + c)%nat ->
          exists e, (fn k).2 = Raise e /\ retry_if_exception_type e = true
                    /\ poll_stop (finished_at fn k) = false)
    /\ run_ends fn (n + c) r.
Proof.
  revert n trace. induction fuel as [|fuel IH]; intros n trace Hn Hrun;
    [discriminate|].
  apply retrying_inv in Hrun.
  destruct Hrun as [(a & Hfn & -> & ->)|[(e & Hfn & He & -> & ->)|
    [(e & Hfn & He & Hs & -> & ->)|
     (e & f & rest & Hfn & He & Hs & [= <-] & Hrec & ->)]]].
  - exists 0%nat. rewrite Nat.add_0_r. unfold run_ends. rewrite Hfn.
    repeat split; lia.
  - exists 0%nat. rewrite Nat.add_0_r. unfold run_ends. rewrite Hfn, He.
    repeat split; lia.
  - exists 0%nat. rewrite Nat.add_0_r. unfold run_ends. rewrite Hfn, He.
    repeat split; try lia; exact Hs.
  - fold (finished_at fn n) in Hrec, Hs.
    rewrite <- started_at_succ in Hrec by exact Hn.
    destruct (IH (S n) rest ltac:(lia) Hrec) as (c & -> & Hc & Hbefore & Hend).
    exists (S c). rewrite Nat.add_succ_r. repeat split; try lia.
    + intros k Hk. destruct (decide (k = n)) as [->|Hne].
      * exists e. repeat split; assumption.
      * apply Hbefore. lia.
    + exact Hend.
Qed.

(** Conversely, attempts retried under the budget lead to the next one:
    when attempt [n + c] returns, the run returns its value. *)
Lemma retrying_reaches (c f n : nat) (a : A) :
  (1 <= n)%nat ->
  (forall k, (n <= k < n + c)%nat ->
     exists e, (fn k).2 = Raise e /\ retry_if_exception_type e = true
               /\ poll_stop (finished_at fn k) = false) ->
  (fn (n + c)).2 = Return a ->
  retrying fn (S (c + f)) n (started_at fn n) = Some (schedule n c, Return a).
Proof.
  revert n. induction c as [|c IH]; intros n Hn Hbefore Hlast.
  - rewrite Nat.add_0_r in Hlast. apply retrying_returns. exact Hlast.
  - destruct (Hbefore n ltac:(lia)) as (e & Hfn & He & Hs).
    unfold finished_at in Hs.
    rewrite (retrying_sleeps fn _ n _ e Hfn He Hs).
    fold (finished_at fn n). rewrite <- started_at_succ by exact Hn.
    rewrite Nat.add_succ_r in Hlast.
    change (S c + f)%nat with (S (c + f)).
    rewrite (IH (S n)); [reflexivity|lia| |exact Hlast].
    intros k Hk. apply Hbefore. lia.
Qed.

Hypothesis durations : forall n, (0 <= (fn n).1)%Q.

Lemma started_at_idle (n : nat) :
  (inject_Z (idle_before n) <= started_at fn n)%Q.
Proof.
  induction n as [|n IH]; [vm_compute; discriminate|].
  destruct n as [|n]; [vm_compute; discriminate|].
  change (started_at fn (S (S n)))
    with (started_at fn (S n) + (fn (S n)).1 + inject_Z (poll_wait (S n)))%Q.
  change (idle_before (S (S n))) with (idle_before (S n) + poll_wait (S n)).
  rewrite inject_Z_plus. pose proof (durations (S n)). lra.
Qed.

(** The attempt before the last one ended under the budget, so the run
    has slept less than the budget until then. *)
Lemma retried_under_budget (k : nat) :
  poll_stop (finished_at fn k) = false -> idle_before k < 86400.
Proof.
  intros Hs. apply poll_stop_false in Hs.
  pose proof (started_at_idle k) as Hidle. pose proof (durations k) as Hd.
  unfold finished_at in Hs.
  assert (inject_Z (idle_before k) < inject_Z 86400)%Q as Hlt by lra.
  rewrite <- Zlt_Qlt in Hlt. exact Hlt.
Qed.
End RunShape.

(** ** Runs of [wait_for_batch_completion] *)

(** Every run of the method from its start, as a schedule. *)
Lemma wait_shape (self : OCRDataProcessor) (world : provider)
    (batch_id : string) (fuel : nat) :
  (forall n, (0 <= (world n).1)%Q) -> (59 <= fuel)%nat ->
  exists c r,
    wait_for_batch_completion self world batch_id fuel = Some (schedule 1 c, r)
    /\ (c < 59)%nat
    /\ (forall k, (1 <= k <= c)%nat ->
          exists e, check_batch self (world k).2 batch_id = Raise e
                    /\ retry_if_exception_type e = true
                    /\ poll_stop (finished_at (attempt self world batch_id) k) = false)
    /\ run_ends (attempt self world batch_id) (S c) r.
Proof.
  intros Hdur Hfuel.
  destruct (wait_terminates self world batch_id fuel Hdur Hfuel)
    as (trace & r & Hrun).
  destruct (retrying_shape (attempt self world batch_id) fuel 1 trace r
              ltac:(lia) Hrun) as (c & -> & _ & Hbefore & Hend).
  exists c, r. split; [exact Hrun|]. split; [|split].
  - destruct (Nat.lt_ge_cases c 59) as [Hlt|Hge]; [exact Hlt|exfalso].
    destruct (Hbefore 59%nat ltac:(lia)) as (e & _ & _ & Hs).
    apply (retried_under_budget (attempt self world batch_id) Hdur) in Hs.
    rewrite idle_before_59 in Hs. lia.
  - intros k Hk. apply Hbefore. lia.
  - exact Hend.
Qed.

(** X2: with non-negative query durations every run of the method ends,
    and it is a schedule from attempt 1: the attempts are numbered
    consecutively, each one before the last ended in
    [BatchNotReadyException] less than 86400 seconds after the start and
    was followed by exactly its wait, and nothing follows the last. *)
Theorem wait_run_is_schedule (self : OCRDataProcessor) (world : provider)
    (batch_id : string) (fuel : nat) :
  (forall n, (0 <= (world n).1)%Q) -> (59 <= fuel)%nat ->
  exists c r,
    wait_for_batch_completion self world batch_id fuel = Some (schedule 1 c, r)
    /\ (forall k, (1 <= k <= c)%nat ->
          (exists msg, check_batch self (world k).2 batch_id
                       = Raise (BatchNotReadyException msg))
          /\ poll_stop (finished_at (attempt self world batch_id) k) = false)
    /\ run_ends (attempt self world batch_id) (S c) r.
Proof.
  intros Hdur Hfuel.
  destruct (wait_shape self world batch_id fuel Hdur Hfuel)
    as (c & r & Hrun & _ & Hbefore & Hend).
  exists c, r. split; [exact Hrun|]. split; [|exact Hend].
  intros k Hk. destruct (Hbefore k Hk) as (e & He & Hretry & Hs).
  split; [|exact Hs]. destruct e; try discriminate. eexists. exact He.
Qed.

Lemma wait_run_is_schedule_witness :
  exists c r,
    wait_for_batch_completion two_records fails_soon "batch_abc" 59
      = Some (schedule 1 c, r)
    /\ (forall k, (1 <= k <= c)%nat ->
          (exists msg, check_batch two_records (fails_soon k).2 "batch_abc"
                       = Raise (BatchNotReadyException msg))
          /\ poll_stop (finished_at (attempt two_records fails_soon "batch_abc") k) = false)
    /\ run_ends (attempt two_records fails_soon "batch_abc") (S c) r.
Proof.
  apply (wait_run_is_schedule two_records fails_soon "batch_abc" 59).
  - intros n. simpl. lra.
  - lia.
Defined.

(** X3: with non-negative query durations no run of the method makes
    more than 59 status queries, and it sleeps less than 88200 seconds
    (the 24 hour budget and one longest wait) in total. *)
Theorem wait_bounds (self : OCRDataProcessor) (world : provider)
    (batch_id : string) (fuel : nat) :
  (forall n, (0 <= (world n).1)%Q) -> (59 <= fuel)%nat ->
  exists trace r,
    wait_for_batch_completion self world batch_id fuel = Some (trace, r)
    /\ (1 <= attempts trace <= 59)%nat
    /\ 0 <= slept trace < 88200.
Proof.
  intros Hdur Hfuel.
  destruct (wait_shape self world batch_id fuel Hdur Hfuel)
    as (c & r & Hrun & Hc & Hbefore & _).
  exists (schedule 1 c), r. split; [exact Hrun|].
  rewrite attempts_schedule, slept_schedule. split; [lia|].
  change (idle_before 1) with 0. change (1 + c)%nat with (S c).
  simpl idle_before.
  pose proof (idle_before_mono 0 c ltac:(lia)) as Hmono. simpl in Hmono.
  pose proof (poll_wait_nonneg c). pose proof (poll_wait_at_most c).
  destruct c as [|c]; [vm_compute; split; [discriminate|reflexivity]|].
  destruct (Hbefore (S c) ltac:(lia)) as (e & _ & _ & Hs).
  apply (retried_under_budget (attempt self world batch_id) Hdur) in Hs.
  lia.
Qed.

Lemma wait_bounds_witness :
  exists trace r,
    wait_for_batch_completion two_records never_ready "batch_abc" 59
      = Some (trace, r)
    /\ (1 <= attempts trace <= 59)%nat
    /\ 0 <= slept trace < 88200.
Proof.
  apply (wait_bounds two_records never_ready "batch_abc" 59).
  - intros n. simpl. lra.
  - lia.
Defined.

(** The bounds are reached by a batch that never finishes. *)
Example never_ready_run :
  exists trace r,
    wait_for_batch_completion two_records never_ready "batch_abc" 59
      = Some (trace, r)
    /\ attempts trace = 59%nat /\ slept trace = 86647.
Proof. eexists _, _. split; [vm_compute; reflexivity|]. split; reflexivity. Qed.

(** X4: if the first [m - 1] status queries report a status other than
    [completed] and [failed], each of these checks ending under the
    budget, and query [m] reports [completed] or [failed], then the method
    returns the details of query [m], after exactly [m] queries and the
    [m - 1] waits between them. *)
Theorem wait_returns_first_terminal (self : OCRDataProcessor)
    (world : provider) (batch_id : string) (m : nat) (d s : json) (fuel : nat) :
  (forall k, (1 <= k <= m)%nat ->
     exists dk sk,
       get_batch_details self (world k).2 batch_id = Return dk
       /\ getitem dk "status" = Return sk
       /\ py_in sk ["completed"; "failed"] = false
       /\ poll_stop (finished_at (attempt self world batch_id) k) = false) ->
  get_batch_details self (world (S m)).2 batch_id = Return d ->
  getitem d "status" = Return s ->
  py_in s ["completed"; "failed"] = true ->
  (m < fuel)%nat ->
  wait_for_batch_completion self world batch_id fuel
  = Some (schedule 1 m, Return d).
Proof.
  intros Hpending Hd Hs Hin Hfuel.
  unfold wait_for_batch_completion, poll_from.
  replace fuel with (S (m + (fuel - S m)))%nat by lia.
  change 0%Q with (started_at (attempt self world batch_id) 1).
  apply retrying_reaches.
  - lia.
  - intros k Hk. destruct (Hpending k ltac:(lia)) as (dk & sk & Hdk & Hsk & Hink & Hstop).
    eexists. split; [|split; [|exact Hstop]].
    + apply (check_batch_pending _ _ _ dk sk); assumption.
    + reflexivity.
  - apply (check_batch_terminal _ _ _ d s); assumption.
Qed.

Lemma wait_returns_first_terminal_witness :
  wait_for_batch_completion two_records fails_soon "batch_abc" 2
  = Some (schedule 1 1, Return (batch_object "failed")).
Proof.
  apply (wait_returns_first_terminal two_records fails_soon "batch_abc" 1
           (batch_object "failed") (JStr "failed") 2).
  - intros k Hk. assert (k = 1%nat) as -> by lia.
    exists (batch_object "validating"), (JStr "validating").
    repeat split; reflexivity.
  - reflexivity.
  - reflexivity.
  - reflexivity.
  - lia.
Defined.

Lemma getitem_raises (v : json) (key : string) (e : exn) :
  getitem v key = Raise e -> e = KeyError key \/ e = TypeError.
Proof.
  destruct v; simpl; try (intros [= <-]; right; reflexivity).
  destruct (obj_get items key); [discriminate|].
  intros [= <-]. left. reflexivity.
Qed.

(** X5: a status answer that has no [status] to read (an error body
    without that key, or a body that is not an object) ends the polling
    at that attempt: the [KeyError] or [TypeError] of
    [batch_details['status']] reaches the caller, without a wait and
    without another query. *)
Theorem status_missing_aborts (self : OCRDataProcessor) (world : provider)
    (batch_id : string) (d : json) (e : exn) (fuel n : nat) (t : Q) :
  get_batch_details self (world n).2 batch_id = Return d ->
  getitem d "status" = Raise e ->
  poll_from self world batch_id (S fuel) n t = Some ([Attempt n], Raise e)
  /\ (e = KeyError "status" \/ e = TypeError).
Proof.
  intros Hd He. pose proof (getitem_raises _ _ _ He) as Hcls.
  split; [|exact Hcls].
  apply retrying_reraises.
  - unfold attempt, check_batch. simpl.
    rewrite Hd, bind_Return, He. reflexivity.
  - destruct Hcls as [-> | ->]; reflexivity.
Qed.

Lemma status_missing_aborts_witness :
  poll_from two_records (fun _ => (0%Q, fun _ => Return bad_request))
    "batch_abc" 1 1 0
  = Some ([Attempt 1], Raise (KeyError "status"))
  /\ (KeyError "status" = KeyError "status" \/ KeyError "status" = TypeError).
Proof.
  apply (status_missing_aborts two_records
           (fun _ => (0%Q, fun _ => Return bad_request)) "batch_abc"
           error_body (KeyError "status") 0 1 0); reflexivity.
Defined.

(** ** Result assembly: failures *)

Lemma mapM_Raise_first {A B} (f : A -> result B) (pre post : list A) (x : A)
    (e : exn) :
  (forall y, y ∈ pre -> exists b, f y = Return b) ->
  f x = Raise e ->
  mapM f (pre ++ x :: post) = Raise e.
Proof.
  intros Hpre Hx. induction pre as [|y pre IH]; simpl.
  - rewrite Hx. reflexivity.
  - destruct (Hpre y) as [b Hb]; [left|]. rewrite Hb, bind_Return.
    rewrite IH; [reflexivity|]. intros z Hz. apply Hpre. right. exact Hz.
Qed.

Lemma getitem0_raises (v : json) (e : exn) :
  getitem0 v = Raise e -> e = KeyError "0" \/ e = IndexError \/ e = TypeError.
Proof.
  destruct v as [| | | |s|items|items]; simpl;
    try (intros [= <-]; right; right; reflexivity).
  - destruct s; [intros [= <-]; right; left; reflexivity|discriminate].
  - destruct items; [intros [= <-]; right; left; reflexivity|discriminate].
  - intros [= <-]. left. reflexivity.
Qed.

Lemma message_content_raises (x : json) (e : exn) :
  message_content x = Raise e ->
  (exists key, e = KeyError key) \/ e = IndexError \/ e = TypeError.
Proof.
  unfold message_content.
  assert (forall v key, getitem v key = Raise e ->
            (exists key, e = KeyError key) \/ e = IndexError \/ e = TypeError)
    as Hget.
  { intros v key H. apply getitem_raises in H as [-> | ->]; eauto. }
  destruct (getitem x "body") as [b|e1] eqn:H1;
    [rewrite bind_Return|intros [= <-]; eapply Hget; eassumption].
  destruct (getitem b "choices") as [c|e2] eqn:H2;
    [rewrite bind_Return|intros [= <-]; eapply Hget; eassumption].
  destruct (getitem0 c) as [c0|e3] eqn:H3; [rewrite bind_Return|].
  - destruct (getitem c0 "message") as [m|e4] eqn:H4;
      [rewrite bind_Return|intros [= <-]; eapply Hget; eassumption].
    intros H. eapply Hget. exact H.
  - intros [= <-]. apply getitem0_raises in H3 as [-> | [-> | ->]]; eauto.
Qed.

(** X6: one line without the nested message content makes the whole
    assembly fail, with no partial result: the call raises the
    [KeyError], [IndexError] or [TypeError] of the first such line,
    whatever the parser does and whatever the lines after it hold. *)
Theorem process_responses_aborts_on_bad_row (loads : json -> result json)
    (pre post : list output_row) (row : output_row) (e : exn) :
  (forall r, r ∈ pre -> exists c, message_content (row_response r) = Return c) ->
  message_content (row_response row) = Raise e ->
  process_responses loads (pre ++ row :: post) = Raise e
  /\ ((exists key, e = KeyError key) \/ e = IndexError \/ e = TypeError).
Proof.
  intros Hpre Hrow. split; [|eapply message_content_raises; exact Hrow].
  unfold process_responses.
  destruct (pre ++ row :: post) as [|r0 rest] eqn:Hdf;
    [destruct pre; discriminate|].
  rewrite <- Hdf.
  rewrite (mapM_Raise_first (fun r => message_content (row_response r))
             pre post row e Hpre Hrow).
  reflexivity.
Qed.

Lemma process_responses_aborts_on_bad_row_witness :
  process_responses json_repair.loads
    ([ {| row_custom_id := LStr "a";
          row_response := response_with (JStr well_formed_content) |} ]
     ++ {| row_custom_id := LStr "b"; row_response := no_choice |}
     :: [ {| row_custom_id := LStr "c";
             row_response := response_with (JStr "[2]") |} ])
  = Raise IndexError
  /\ ((exists key, IndexError = KeyError key) \/ IndexError = IndexError
      \/ IndexError = TypeError).
Proof.
  apply (process_responses_aborts_on_bad_row json_repair.loads).
  - intros r Hr. apply list_elem_of_singleton in Hr as ->.
    eexists. reflexivity.
  - reflexivity.
Defined.

(** X7: when every line has its message content, an exception of the
    parser on one content (with the model of [json_repair], a content
    that is not a string) makes the whole assembly fail with the
    exception of the first such line. *)
Theorem process_responses_aborts_on_parse_error (loads : json -> result json)
    (pre post : list output_row) (row : output_row) (c : json) (e : exn) :
  (forall r, r ∈ pre ++ row :: post ->
     exists c', message_content (row_response r) = Return c') ->
  (forall r, r ∈ pre -> exists v, parse_row loads r = Return v) ->
  message_content (row_response row) = Return c ->
  loads c = Raise e ->
  process_responses loads (pre ++ row :: post) = Raise e.
Proof.
  intros Hall Hpre Hc He. unfold process_responses.
  destruct (pre ++ row :: post) as [|r0 rest] eqn:Hdf;
    [destruct pre; discriminate|].
  rewrite <- Hdf in *. clear Hdf r0 rest.
  assert (exists pre_c post_c,
            mapM (fun r => message_content (row_response r)) (pre ++ row :: post)
            = Return (pre_c ++ c :: post_c)
            /\ forall x, x ∈ pre_c -> exists v, loads x = Return v)
    as (pre_c & post_c & -> & Hloads).
  { assert (exists post_c,
              mapM (fun r => message_content (row_response r)) post = Return post_c)
      as [post_c Hpost].
    { assert (forall r, r ∈ post ->
                exists c', message_content (row_response r) = Return c') as Hp.
      { intros r Hr. apply Hall. apply elem_of_app. right. right. exact Hr. }
      clear -Hp. induction post as [|r post IH]; [exists []; reflexivity|].
      destruct (Hp r) as [c' Hc']; [left|].
      destruct IH as [cs Hcs]; [intros x Hx; apply Hp; right; exact Hx|].
      exists (c' :: cs). simpl. rewrite Hc', bind_Return, Hcs. reflexivity. }
    clear Hall. induction pre as [|r pre IH].
    - exists [], post_c. split; [|intros x Hx; inversion Hx].
      simpl. rewrite Hc, bind_Return, Hpost. reflexivity.
    - destruct (Hpre r) as [v Hv]; [left|].
      unfold parse_row in Hv.
      destruct (message_content (row_response r)) as [cr|] eqn:Hcr;
        [rewrite bind_Return in Hv|discriminate].
      destruct IH as (pre_c & post_c' & Heq & Hl);
        [intros x Hx; apply Hpre; right; exact Hx|].
      exists (cr :: pre_c), post_c'. split.
      + simpl. rewrite Hcr, bind_Return, Heq. reflexivity.
      + intros x Hx. apply elem_of_cons in Hx as [->|Hx]; [eauto|apply Hl, Hx]. }
  rewrite bind_Return.
  rewrite (mapM_Raise_first loads pre_c post_c c e Hloads He). reflexivity.
Qed.

Lemma process_responses_aborts_on_parse_error_witness :
  process_responses json_repair.loads
    ([ {| row_custom_id := LStr "a";
          row_response := response_with (JStr well_formed_content) |} ]
     ++ {| row_custom_id := LStr "b"; row_response := response_with JNull |}
     :: [])
  = Raise TypeError.
Proof.
  apply (process_responses_aborts_on_parse_error json_repair.loads
           [ {| row_custom_id := LStr "a";
                row_response := response_with (JStr well_formed_content) |} ]
           [] {| row_custom_id := LStr "b"; row_response := response_with JNull |}
           JNull TypeError).
  - intros r Hr. simpl in Hr.
    apply elem_of_cons in Hr as [->|Hr]; [eexists; reflexivity|].
    apply list_elem_of_singleton in Hr as ->. eexists. reflexivity.
  - intros r Hr. apply list_elem_of_singleton in Hr as ->.
    eexists. vm_compute. reflexivity.
  - reflexivity.
  - reflexivity.
Defined.

(** ** Result assembly: the dictionary *)

Lemma Forall2_elem_of_l {A B} (P : A -> B -> Prop) (l : list A) (k : list B)
    (x : A) :
  Forall2 P l k -> x ∈ l -> exists y, P x y.
Proof.
  induction 1 as [|a b l k Hab _ IH]; intros Hx; [inversion Hx|].
  apply elem_of_cons in Hx as [->|Hx]; [eauto|apply IH, Hx].
Qed.

Lemma NoDup_fmap_last {A B} (f : A -> B) (pre post : list A) (x : A) :
  NoDup (f <$> pre ++ x :: post) -> forall y, y ∈ post -> f y <> f x.
Proof.
  rewrite fmap_app, fmap_cons. intros Hnd y Hy Heq.
  apply NoDup_app in Hnd as (_ & _ & Hnd).
  apply NoDup_cons in Hnd as [Hx _].
  apply Hx. rewrite <- Heq. apply list_elem_of_fmap_2. exact Hy.
Qed.

(** X8: the keys of the returned dictionary are exactly the cells of the
    [custom_id] column: no key is invented, there are never more keys
    than lines, and there are as many when the ids are distinct. *)
Theorem process_responses_keys_are_ids (loads : json -> result json)
    (df : list output_row) (m : gmap label json) :
  process_responses loads df = Return m ->
  dom m = list_to_set (row_custom_id <$> df)
  /\ (size m <= length df)%nat
  /\ (NoDup (row_custom_id <$> df) -> size m = length df).
Proof.
  intros Hrun. apply process_responses_keys in Hrun as Hdom.
  split; [exact Hdom|].
  rewrite <- size_dom, Hdom. split.
  - rewrite <- (length_fmap row_custom_id df).
    generalize (row_custom_id <$> df). intros ids.
    induction ids as [|k ids IH].
    + rewrite list_to_set_nil, size_empty. simpl. lia.
    + rewrite list_to_set_cons, size_union_alt, size_singleton.
      assert (size (list_to_set ids ∖ {[k]} : gset label)
              <= size (list_to_set ids : gset label))%nat as Hle.
      { apply subseteq_size. intros x Hx.
        apply elem_of_difference in Hx as [Hx _]. exact Hx. }
      simpl. lia.
  - intros Hnd. rewrite size_list_to_set by exact Hnd. apply length_fmap.
Qed.

Lemma process_responses_keys_are_ids_witness :
  dom (to_dict [(LStr "46448ab7", x_is_1); (LStr "d537a581", x_is_1)])
    = list_to_set (row_custom_id <$> two_rows)
  /\ (size (to_dict [(LStr "46448ab7", x_is_1); (LStr "d537a581", x_is_1)])
      <= length two_rows)%nat
  /\ (NoDup (row_custom_id <$> two_rows) ->
      size (to_dict [(LStr "46448ab7", x_is_1); (LStr "d537a581", x_is_1)])
      = length two_rows).
Proof.
  apply (process_responses_keys_are_ids json_repair.loads two_rows).
  vm_compute. reflexivity.
Defined.

(** With distinct ids every row is the last one with its id. *)
Lemma rows_bound (loads : json -> result json) (df : list output_row) :
  df <> [] ->
  NoDup (row_custom_id <$> df) ->
  (forall r, r ∈ df -> exists v, parse_row loads r = Return v) ->
  exists m,
    process_responses loads df = Return m
    /\ forall r, r ∈ df ->
         exists v, parse_row loads r = Return v /\ m !! row_custom_id r = Some v.
Proof.
  intros Hne Hnd Hall.
  destruct (parse_rows_exist loads df Hall) as [parsed Hparsed].
  exists (to_dict (zip (row_custom_id <$> df) parsed)).
  assert (process_responses loads df
          = Return (to_dict (zip (row_custom_id <$> df) parsed))) as Hrun.
  { apply process_responses_Return. split; [exact Hne|].
    exists parsed. split; [exact Hparsed|reflexivity]. }
  split; [exact Hrun|].
  intros r Hr. apply list_elem_of_split in Hr as (pre & post & ->).
  apply (process_responses_lookup loads pre post r _ Hrun).
  exact (NoDup_fmap_last row_custom_id pre post r Hnd).
Qed.

(** X9: when the ids of the lines are distinct and both lambdas return
    on every line, the call returns a dictionary with one key per line,
    in which every line's id is bound to what was parsed from that very
    line: nothing is overwritten and nothing is lost. *)
Theorem process_responses_binds_every_row (loads : json -> result json)
    (df : list output_row) :
  df <> [] ->
  NoDup (row_custom_id <$> df) ->
  (forall r, r ∈ df -> exists v, parse_row loads r = Return v) ->
  exists m,
    process_responses loads df = Return m
    /\ size m = length df
    /\ forall r, r ∈ df ->
         exists v, parse_row loads r = Return v /\ m !! row_custom_id r = Some v.
Proof.
  intros Hne Hnd Hall.
  destruct (rows_bound loads df Hne Hnd Hall) as (m & Hrun & Hrows).
  exists m. split; [exact Hrun|]. split; [|exact Hrows].
  rewrite <- size_dom, (process_responses_keys loads df m Hrun).
  rewrite size_list_to_set by exact Hnd. apply length_fmap.
Qed.

Lemma process_responses_binds_every_row_witness :
  exists m,
    process_responses json_repair.loads two_rows = Return m
    /\ size m = length two_rows
    /\ forall r, r ∈ two_rows ->
         exists v, parse_row json_repair.loads r = Return v
                   /\ m !! row_custom_id r = Some v.
Proof.
  apply (process_responses_binds_every_row json_repair.loads two_rows).
  - discriminate.
  - apply (bool_decide_unpack _). vm_compute. reflexivity.
  - intros r Hr. unfold two_rows in Hr.
    apply elem_of_cons in Hr as [->|Hr]; [eexists; vm_compute; reflexivity|].
    apply list_elem_of_singleton in Hr as ->. eexists. vm_compute. reflexivity.
Defined.

(** X10: with distinct ids the result does not depend on the order of
    the lines of the output file: a frame with the same rows in another
    order gives the same dictionary. *)
Theorem process_responses_order_irrelevant (loads : json -> result json)
    (df df' : list output_row) (m : gmap label json) :
  NoDup (row_custom_id <$> df) ->
  df ≡ₚ df' ->
  process_responses loads df = Return m ->
  process_responses loads df' = Return m.
Proof.
  intros Hnd Hperm Hrun.
  pose proof Hrun as Hinv.
  apply process_responses_Return in Hinv as (Hne & parsed & Hparsed & _).
  assert (NoDup (row_custom_id <$> df')) as Hnd' by (rewrite <- Hperm; exact Hnd).
  assert (df' <> []) as Hne'.
  { intros ->. apply Hne. apply Permutation_nil_r. exact Hperm. }
  assert (forall r, r ∈ df' -> exists v, parse_row loads r = Return v) as Hall'.
  { intros r Hr. rewrite <- Hperm in Hr.
    apply (Forall2_elem_of_l _ _ _ r Hparsed Hr). }
  destruct (rows_bound loads df' Hne' Hnd' Hall') as (m' & Hrun' & Hrows').
  rewrite Hrun'. f_equal. apply map_eq. intros k.
  destruct (decide (k ∈ row_custom_id <$> df)) as [Hin|Hout].
  - apply list_elem_of_fmap in Hin as (r & -> & Hr).
    destruct (Hrows' r ltac:(rewrite <- Hperm; exact Hr)) as (v' & Hv' & ->).
    apply list_elem_of_split in Hr as (pre & post & ->).
    destruct (process_responses_lookup loads pre post r m Hrun
                (NoDup_fmap_last _ _ _ _ Hnd)) as (v & Hv & ->).
    congruence.
  - assert (m !! k = None) as ->.
    { apply not_elem_of_dom. rewrite (process_responses_keys loads df m Hrun).
      rewrite elem_of_list_to_set. exact Hout. }
    apply not_elem_of_dom. rewrite (process_responses_keys loads df' m' Hrun').
    rewrite elem_of_list_to_set, <- Hperm. exact Hout.
Qed.

Lemma process_responses_order_irrelevant_witness :
  process_responses json_repair.loads (reverse two_rows)
  = Return (to_dict [(LStr "46448ab7", x_is_1); (LStr "d537a581", x_is_1)]).
Proof.
  apply (process_responses_order_irrelevant json_repair.loads two_rows).
  - apply (bool_decide_unpack _). vm_compute. reflexivity.
  - symmetry. apply reverse_Permutation.
  - vm_compute. reflexivity.
Defined.

(** X11: when the output file has one line per submitted request, in
    any order, with the submitted ids read back as the strings they were
    (ids that do not read as numbers), and both lambdas return on every
    line, then the result has exactly one key per record of the input
    mapping, and the id of every request is bound to what was parsed from
    the line that carries it. *)
Theorem submitted_ids_come_back (self : OCRDataProcessor)
    (loads : json -> result json) (df : list output_row) :
  ocr_data self <> [] ->
  is_dict (ocr_data self) ->
  row_custom_id <$> df ≡ₚ LStr <$> custom_ids (prepare_data self) ->
  (forall r, r ∈ df -> exists v, parse_row loads r = Return v) ->
  exists m,
    process_responses loads df = Return m
    /\ size m = length (ocr_data self)
    /\ forall req, req ∈ prepare_data self ->
         exists row v,
           row ∈ df /\ row_custom_id row = LStr (custom_id req)
           /\ parse_row loads row = Return v
           /\ m !! LStr (custom_id req) = Some v.
Proof.
  intros Hne Hdict Hperm Hall.
  assert (NoDup (row_custom_id <$> df)) as Hnd.
  { rewrite Hperm, prepare_data_custom_ids.
    apply NoDup_fmap_2; [intros x y [= ->]; reflexivity|exact Hdict]. }
  assert (length df = length (ocr_data self)) as Hlen.
  { rewrite <- (length_fmap row_custom_id df), Hperm, length_fmap.
    unfold custom_ids. rewrite length_fmap. apply prepare_data_length. }
  assert (df <> []) as Hdf.
  { intros ->. destruct (ocr_data self); [contradiction|discriminate]. }
  destruct (rows_bound loads df Hdf Hnd Hall) as (m & Hrun & Hrows).
  exists m. split; [exact Hrun|]. split.
  - rewrite <- size_dom, (process_responses_keys loads df m Hrun).
    rewrite size_list_to_set by exact Hnd. rewrite length_fmap. exact Hlen.
  - intros req Hreq.
    assert (LStr (custom_id req) ∈ row_custom_id <$> df) as Hin.
    { rewrite Hperm. apply list_elem_of_fmap_2. unfold custom_ids.
      apply list_elem_of_fmap_2. exact Hreq. }
    apply list_elem_of_fmap in Hin as (row & Hid & Hrow).
    destruct (Hrows row Hrow) as (v & Hv & Hm).
    exists row, v. rewrite Hid. repeat split; assumption || reflexivity.
Qed.

Lemma submitted_ids_come_back_witness :
  exists m,
    process_responses json_repair.loads two_rows = Return m
    /\ size m = length (ocr_data two_records)
    /\ forall req, req ∈ prepare_data two_records ->
         exists row v,
           row ∈ two_rows /\ row_custom_id row = LStr (custom_id req)
           /\ parse_row json_repair.loads row = Return v
           /\ m !! LStr (custom_id req) = Some v.
Proof.
  apply (submitted_ids_come_back two_records json_repair.loads two_rows).
  - discriminate.
  - unfold is_dict. apply (bool_decide_unpack _). vm_compute. reflexivity.
  - apply perm_swap.
  - intros r Hr. unfold two_rows in Hr.
    apply elem_of_cons in Hr as [->|Hr]; [eexists; vm_compute; reflexivity|].
    apply list_elem_of_singleton in Hr as ->. eexists. vm_compute. reflexivity.
Defined.

(** ** The batch file and the submission *)

(** X12: [create_batch_file], given the frame of [prepare_data], passes
    to the file write the path [/app/batch.jsonl] and one line per record
    of the input mapping, and returns that path exactly when the write
    succeeds (it raises what the write raises).  The line at a record's
    position is an object with the record id as [custom_id], the method
    [POST], the chat-completions url, and a body with the model and two
    messages, the system prompt and the record's text, unchanged, as the
    user message. *)
Theorem batch_file_line (self : OCRDataProcessor) (i : nat) (k x : string) :
  ocr_data self !! i = Some (k, x) ->
  exists lines,
    (forall write : string -> list json -> result unit,
       create_batch_file write (prepare_data self)
       = write "/app/batch.jsonl" lines ≫= fun _ => Return "/app/batch.jsonl")
    /\ length lines = length (ocr_data self)
    /\ lines !! i =
       Some (JObj [("custom_id", JStr k);
                   ("method", JStr "POST");
                   ("url", JStr "/v1/chat/completions");
                   ("body",
                    JObj [("model", JStr (model self));
                          ("messages",
                           JArr [JObj [("role", JStr "system");
                                       ("content", JStr (system_prompt self))];
                                 JObj [("role", JStr "user");
                                       ("content", JStr x)]])])]).
Proof.
  intros Hi. exists (to_json_lines (prepare_data self)).
  split; [intros write; reflexivity|]. unfold to_json_lines. split.
  - rewrite length_fmap. apply prepare_data_length.
  - rewrite list_lookup_fmap, (prepare_data_lookup self i k x Hi). reflexivity.
Qed.

Lemma batch_file_line_witness :
  exists lines,
    (forall write : string -> list json -> result unit,
       create_batch_file write (prepare_data two_records)
       = write "/app/batch.jsonl" lines ≫= fun _ => Return "/app/batch.jsonl")
    /\ length lines = length (ocr_data two_records)
    /\ lines !! 1%nat =
       Some (JObj [("custom_id", JStr "46448ab7");
                   ("method", JStr "POST");
                   ("url", JStr "/v1/chat/completions");
                   ("body",
                    JObj [("model", JStr (model two_records));
                          ("messages",
                           JArr [JObj [("role", JStr "system");
                                       ("content", JStr (system_prompt two_records))];
                                 JObj [("role", JStr "user");
                                       ("content", JStr "Imaged 2015")]])])]).
Proof. apply (batch_file_line two_records 1 "46448ab7" "Imaged 2015"). reflexivity. Defined.

(** A write that fails makes the method fail, and a write that succeeds
    receives both records of the usage example. *)
Example batch_file_write_fails :
  create_batch_file (fun _ _ => Raise (RequestException "OSError"))
    (prepare_data two_records)
  = Raise (RequestException "OSError").
Proof. reflexivity. Qed.

Example batch_file_written :
  create_batch_file
    (fun path lines =>
       if String.eqb path "/app/batch.jsonl" && (length lines =? 2)%nat
       then Return tt else Raise (RequestException "OSError"))
    (prepare_data two_records)
  = Return "/app/batch.jsonl".
Proof. reflexivity. Qed.

(** X13: a batch object that [create_batch] returns is always the decoded
    body of the answer to one POST to the batches url that carries the id
    the upload returned, the chat-completions endpoint and the 24h
    window; a failed upload or a failed POST never yields one. *)
Theorem create_batch_returns_inv (self : OCRDataProcessor)
    (upload : string -> result string)
    (post : http_request -> result http_response)
    (batch_file : string) (batch : json) :
  create_batch self upload post batch_file = Return batch ->
  exists file_id response,
    upload batch_file = Return file_id
    /\ post {| req_url := "https://api.openai.com/v1/batches";
               req_headers := [("Authorization", authorization self);
                               ("Content-Type", "application/json")];
               req_json := Some (JObj [("input_file_id", JStr file_id);
                                       ("endpoint", JStr "/v1/chat/completions");
                                       ("completion_window", JStr "24h")]) |}
       = Return response
    /\ response_json response = Return batch.
Proof.
  unfold create_batch, _create_batch.
  destruct (upload batch_file) as [file_id|e]; [rewrite bind_Return|discriminate].
  destruct (post _) as [response|e] eqn:Hpost; [rewrite bind_Return|discriminate].
  intros Hjson. exists file_id, response. repeat split; assumption.
Qed.

Lemma create_batch_returns_inv_witness :
  exists file_id response,
    Return "file-abc" = Return file_id
    /\ Return created_ok = Return response
    /\ response_json response = Return (batch_object "validating").
Proof.
  apply (create_batch_returns_inv two_records (fun _ => Return "file-abc")
           (fun _ => Return created_ok) "/app/batch.jsonl"
           (batch_object "validating")).
  reflexivity.
Defined.

(** ** The script *)

Lemma submission_of_environment (env : environment) (self : OCRDataProcessor)
    (file_id : string) (response : http_response) (batch : json) :
  write_file env "/app/batch.jsonl" (to_json_lines (prepare_data self)) = Return tt ->
  files_create env "/app/batch.jsonl" = Return file_id ->
  http_post env {| req_url := "https://api.openai.com/v1/batches";
                   req_headers := headers self;
                   req_json := Some (JObj [("input_file_id", JStr file_id);
                                           ("endpoint", JStr "/v1/chat/completions");
                                           ("completion_window", JStr "24h")]) |}
    = Return response ->
  response_json response = Return batch ->
  create_batch_file (write_file env) (prepare_data self)
    ≫= create_batch self (files_create env) (http_post env) = Return batch.
Proof.
  intros Hw Hu Hp Hj. unfold create_batch_file.
  rewrite Hw, !bind_Return. unfold create_batch.
  rewrite Hu, bind_Return. unfold _create_batch. rewrite Hp, bind_Return.
  exact Hj.
Qed.

(** X14: when the answer to the batch creation is an object without an
    [id] (the error body of a rejected request), the script does not
    stop there: the [KeyError] of [batch['id']] is caught and logged with
    the rest of the [try] block, and the script then dies of the
    [NameError] on [batch_details], whatever the batch endpoint would
    have answered. *)
Theorem main_without_batch_id (env : environment) (self : OCRDataProcessor)
    (file_id : string) (response : http_response) (items : list (string * json))
    (fuel : nat) :
  write_file env "/app/batch.jsonl" (to_json_lines (prepare_data self)) = Return tt ->
  files_create env "/app/batch.jsonl" = Return file_id ->
  http_post env {| req_url := "https://api.openai.com/v1/batches";
                   req_headers := headers self;
                   req_json := Some (JObj [("input_file_id", JStr file_id);
                                           ("endpoint", JStr "/v1/chat/completions");
                                           ("completion_window", JStr "24h")]) |}
    = Return response ->
  response_json response = Return (JObj items) ->
  obj_get items "id" = None ->
  main env self fuel = Some (NameError "batch_details").
Proof.
  intros Hw Hu Hp Hj Hid. unfold main.
  rewrite (submission_of_environment env self file_id response _ Hw Hu Hp Hj).
  unfold polled. simpl getitem. rewrite Hid. reflexivity.
Qed.

Lemma main_without_batch_id_witness :
  main (environment_with bad_request never_ready) two_records 0
  = Some (NameError "batch_details").
Proof.
  apply (main_without_batch_id (environment_with bad_request never_ready)
           two_records "file-abc" bad_request
           [("error", JObj [("message", JStr "Invalid file id");
                            ("type", JStr "invalid_request_error")])] 0);
    reflexivity.
Defined.

(** X15: when the batch never reaches [completed] or [failed], the
    [RetryError] of the poller does not reach the user of the script: it
    is caught and logged, and the script dies of the [NameError] on
    [batch_details]. *)
Theorem main_timeout_is_NameError (env : environment) (self : OCRDataProcessor)
    (batch id : json) (fuel : nat) :
  create_batch_file (write_file env) (prepare_data self)
    ≫= create_batch self (files_create env) (http_post env) = Return batch ->
  getitem batch "id" = Return id ->
  (forall n, (0 <= (batches env n).1)%Q) ->
  (forall n, exists d s,
      get_batch_details self (batches env n).2 (format_id env id) = Return d
      /\ getitem d "status" = Return s
      /\ py_in s ["completed"; "failed"] = false) ->
  (59 <= fuel)%nat ->
  main env self fuel = Some (NameError "batch_details").
Proof.
  intros Hsub Hid Hdur Hpending Hfuel. unfold main. rewrite Hsub.
  unfold polled. rewrite Hid.
  destruct (wait_terminates self (batches env) (format_id env id) fuel Hdur Hfuel)
    as (trace & r & Hrun).
  rewrite Hrun. simpl.
  assert (forall k, exists e,
            (attempt self (batches env) (format_id env id) k).2 = Raise e
            /\ retry_if_exception_type e = true) as Hall.
  { intros k. destruct (Hpending k) as (d & s & Hd & Hs & Hin).
    exists (BatchNotReadyException "Batch not ready yet, rechecking...").
    split; [|reflexivity].
    apply (check_batch_pending _ _ _ d s); assumption. }
  destruct (retrying_timeout_in_run
              (attempt self (batches env) (format_id env id)) fuel 1 trace r
              Hall ltac:(lia) Hrun)
    as (m & e & _ & _ & _ & -> & _).
  reflexivity.
Qed.

Lemma main_timeout_is_NameError_witness :
  main (environment_with created_ok never_ready) two_records 59
  = Some (NameError "batch_details").
Proof.
  apply (main_timeout_is_NameError (environment_with created_ok never_ready)
           two_records (batch_object "validating") (JStr "batch_abc") 59).
  - reflexivity.
  - reflexivity.
  - intros n. simpl. lra.
  - intros n. exists (batch_object "in_progress"), (JStr "in_progress").
    repeat split; reflexivity.
  - lia.
Defined.

(** X16: the script prints results only when the poller returned the
    details of a batch whose status is [completed], and what it prints
    is the dictionary [process_responses] builds from the file named by
    the [output_file_id] of these details: it never prints for a batch
    that ended [failed]. *)
Theorem main_prints_only_completed (env : environment) (self : OCRDataProcessor)
    (fuel : nat) (results : gmap label json) :
  main env self fuel = Some (Printed results) ->
  exists batch id trace d out df,
    getitem batch "id" = Return id
    /\ wait_for_batch_completion self (batches env) (format_id env id) fuel
       = Some (trace, Return d)
    /\ getitem d "status" = Return (JStr "completed")
    /\ getitem d "output_file_id" = Return out
    /\ read_output env out = Return df
    /\ process_responses (json_loads env) df = Return results.
Proof.
  unfold main.
  destruct (create_batch_file _ _ ≫= _) as [batch|e]; [|discriminate].
  unfold polled.
  destruct (getitem batch "id") as [id|e] eqn:Hid; [|discriminate].
  destruct (wait_for_batch_completion _ _ _ _) as [[trace r]|] eqn:Hrun;
    [|discriminate].
  simpl. destruct r as [d|e]; [|discriminate].
  destruct (getitem d "status") as [status|e] eqn:Hs; [|discriminate].
  destruct (py_eq status "completed") eqn:Heq;
    [|discriminate].
  destruct status as [| | | |s| |]; try discriminate.
  apply String.eqb_eq in Heq as ->.
  destruct (getitem d "output_file_id") as [out|e] eqn:Hout;
    [rewrite bind_Return|discriminate].
  unfold process_output.
  destruct (read_output env out) as [df|e] eqn:Hdf;
    [rewrite bind_Return|discriminate].
  destruct (process_responses (json_loads env) df) as [m|e] eqn:Hm;
    [|discriminate].
  intros [= <-]. exists batch, id, trace, d, out, df. repeat split; assumption.
Qed.

Lemma main_prints_only_completed_witness :
  exists batch id trace d out df,
    getitem batch "id" = Return id
    /\ wait_for_batch_completion two_records
         (batches (environment_with created_ok completes_soon))
         (format_id (environment_with created_ok completes_soon) id) 2
       = Some (trace, Return d)
    /\ getitem d "status" = Return (JStr "completed")
    /\ getitem d "output_file_id" = Return out
    /\ read_output (environment_with created_ok completes_soon) out = Return df
    /\ process_responses
         (json_loads (environment_with created_ok completes_soon)) df
       = Return (to_dict [(LStr "46448ab7", x_is_1); (LStr "d537a581", x_is_1)]).
Proof.
  apply (main_prints_only_completed (environment_with created_ok completes_soon)
           two_records 2).
  vm_compute. reflexivity.
Defined.

(** The three ways the script ends, on the scenarios. *)
Example main_prints :
  main (environment_with created_ok completes_soon) two_records 2
  = Some (Printed (to_dict [(LStr "46448ab7", x_is_1); (LStr "d537a581", x_is_1)])).
Proof. vm_compute. reflexivity. Qed.

Example main_failed_batch :
  main (environment_with created_ok fails_soon) two_records 2
  = Some Nothing_printed.
Proof. vm_compute. reflexivity. Qed.
